(** * gifcrop: cropping every frame of an animated image

    A shallow embedding of [gifcrop.py] and the properties its
    specification states about it.

    The script is a linear pipeline over the Pillow imaging library:
    check that the input path exists, validate the crop rectangle, open
    the image, copy / crop / convert every frame, hand the frames to the
    encoder.  The script is embedded as it is written (exceptions, the
    [while True] loop left by [EOFError], the mutable [frames] list, the
    two [print]-and-handle layers); of Pillow, the part of the interface
    that the script calls is modelled:

    - an image is a mode string, a size and rows of pixels; what a pixel
      is, the value of a blank pixel and the per-pixel colour conversion
      are left to an [Imaging] instance;
    - [Image.crop] refuses a reversed box with [ValueError] and a box of
      more than twice [MAX_IMAGE_PIXELS] pixels with
      [DecompressionBombError] (a side of length 0 counting as 1);
      otherwise it copies the pixels of the box that lie inside the image
      and leaves the others blank;
    - an opened file is a handle on a non-empty sequence of frames, each
      of which either decodes to an image or raises when it is loaded;
      [seek] past the last frame raises [EOFError];
    - [save] writes the frames it is handed in order, except that a
      frame in which the encoder finds nothing new over the frame written
      before it is not written: its display time is added to that of the
      frame before it.  Which frames the encoder finds identical is left
      to the [Imaging] instance.  An empty image is refused.  The file
      holds the size of the animation and the loop count in two bytes
      each, and each display time in hundredths of a second, in two
      bytes.  The encoder's palette quantisation is not modelled;
    - a path may have other spellings that name the same file
      ([aliases]); writing to a path changes what all of them show;
    - closing the file when the [with] block is left has no effect that
      the script can observe, and is left out; so is the warning that
      Pillow prints for an image of more than [MAX_IMAGE_PIXELS]
      pixels. *)

From Stdlib Require Import ZArith Lia.
From stdpp Require Import base option list list_numbers strings gmap pretty.

Local Open Scope string_scope.
Local Open Scope Z_scope.

(** ** Exceptions and results *)

(** The exception classes that occur, each carrying the text that
    [str(e)] returns. All are subclasses of [Exception]. *)
Inductive exn : Type :=
  | ValueError (msg : string)
  | FileNotFoundError (msg : string)
  | EOFError (msg : string)
  | OSError (msg : string)
  | UnidentifiedImageError (msg : string)
  | DecompressionBombError (msg : string).

Definition str (e : exn) : string :=
  match e with
  | ValueError m | FileNotFoundError m | EOFError m
  | OSError m | UnidentifiedImageError m | DecompressionBombError m => m
  end.

(** [isinstance(e, EOFError)], the test of [except EOFError]. *)
Definition is_EOFError (e : exn) : bool :=
  match e with EOFError _ => true | _ => false end.

(** The outcome of running a piece of the script: a value, a raised
    exception, or [Unfinished] when a bounded unrolling of [while True]
    was too short (shown below never to happen for [crop_gif]). *)
Inductive result (A : Type) : Type :=
  | Ok (a : A)
  | Raise (e : exn)
  | Unfinished.
Arguments Ok {A} a.
Arguments Raise {A} e.
Arguments Unfinished {A}.

(** ** A state-and-exception monad

    [M S A]: a computation over mutable state [S] that returns an [A] or
    raises. State changes made before an exception is raised persist, as
    they do in Python. *)
Definition M (S A : Type) : Type := S → result A * S.

Definition ret {S A} (a : A) : M S A := λ s, (Ok a, s).
Definition raise {S A} (e : exn) : M S A := λ s, (Raise e, s).
Definition bind {S A B} (m : M S A) (k : A → M S B) : M S B :=
  λ s, match m s with
       | (Ok a, s') => k a s'
       | (Raise e, s') => (Raise e, s')
       | (Unfinished, s') => (Unfinished, s')
       end.

(** [try: body except Exception as e: handler e] *)
Definition try_except {S A} (body : M S A) (handler : exn → M S A) : M S A :=
  λ s, match body s with
       | (Raise e, s') => handler e s'
       | r => r
       end.

(** A pure call that may raise. *)
Definition lift {S A} (r : result A) : M S A := λ s, (r, s).

Definition modify {S} (f : S → S) : M S unit := λ s, (Ok tt, f s).

#[global] Instance M_ret {S} : MRet (M S) := @ret S.
#[global] Instance M_bind {S} : MBind (M S) := λ A B k m, bind m k.

(** [while True: body]: left only by an exception. *)
Fixpoint while_true {S} (fuel : nat) (body : M S unit) : M S unit :=
  match fuel with
  | O => λ s, (Unfinished, s)
  | S n => body ;; while_true n body
  end.

(** ** validate_dimensions *)

Definition validate_dimensions (left top right bottom : Z) : result unit :=
  if bool_decide (left >= right) then
    Raise (ValueError "Left coordinate must be less than right coordinate")
  else if bool_decide (top >= bottom) then
    Raise (ValueError "Top coordinate must be less than bottom coordinate")
  else if existsb (λ x, bool_decide (x < 0)) [left; top; right; bottom] then
    Raise (ValueError "Coordinates cannot be negative")
  else Ok tt.

(** ** The imaging library's interface

    Pixels are kept abstract: an instance says what a pixel is, which
    value a freshly allocated (blank) pixel of a mode has, and how one
    pixel is converted from one mode to another.  It also says when the
    encoder finds that a frame, given by its mode and rows, shows nothing
    new over the frame written before it. *)
Class Imaging (Pixel : Type) : Type := {
  blank : string → Pixel;
  convert_pixel : string → string → Pixel → Pixel;
  same_picture :
    string * list (list Pixel) → string * list (list Pixel) → bool
}.

(** [Image.MAX_IMAGE_PIXELS] *)
Definition MAX_IMAGE_PIXELS : Z := 89478485.

(** Pillow's guard on the size of an image that it is about to open or
    to cut out. *)
Definition decompression_bomb_check (size : Z * Z) : result unit :=
  let pixels := Z.max 1 size.1 * Z.max 1 size.2 in
  if bool_decide (pixels > 2 * MAX_IMAGE_PIXELS) then
    Raise (DecompressionBombError
             ("Image size (" ++ pretty pixels ++ " pixels) exceeds limit of "
              ++ pretty (2 * MAX_IMAGE_PIXELS)
              ++ " pixels, could be decompression bomb DOS attack."))
  else Ok tt.

(** [o16(i)], the two bytes in which the encoder writes [i], read as the
    number that a decoder finds in them: [i & 0xFFFF]. *)
Definition o16 (i : Z) : Z := Z.land i 65535.

(** The display time, in milliseconds, that a decoder finds for a frame
    written with [duration]: the file holds [int(duration / 10)]
    hundredths of a second, in two bytes. *)
Definition stored_duration (duration : Z) : Z := 10 * o16 (duration ÷ 10).

(** What the script sends to standard output and which library calls
    touch the file system, in order. *)
Inductive Event : Type :=
  | Print (line : string)
  | Open (path : string)
  | Save (path : string).

(** The stages of the pipeline. *)
Inductive Stage : Type :=
  | PathCheck
  | Validation
  | Decode
  | Crop
  | Encode.

Section Pipeline.
Context {Pixel : Type} `{Imaging Pixel}.

(** An in-memory image: [im.mode], [im.width], [im.height] and the
    pixels, top row first, each row left to right. *)
Record Image : Type := {
  mode : string;
  width : Z;
  height : Z;
  rows : list (list Pixel)
}.

(** The pixel data has the shape that the size announces, and the image
    is one that Pillow lets be: its size passes the pixel-count guard,
    as that of every image that was opened or cut out does. *)
Definition wf_image (im : Image) : Prop :=
  0 ≤ width im ∧ 0 ≤ height im ∧
  length (rows im) = Z.to_nat (height im) ∧
  Forall (λ row, length row = Z.to_nat (width im)) (rows im) ∧
  decompression_bomb_check (width im, height im) = Ok tt.

(** The pixel at column [x] of row [y], when the image has one. *)
Definition getpixel (im : Image) (x y : Z) : option Pixel :=
  if bool_decide (0 ≤ x < width im ∧ 0 ≤ y < height im)
  then row ← rows im !! Z.to_nat y; row !! Z.to_nat x
  else None.

(** [im.crop((left, top, right, bottom))]: a reversed box is refused, and
    so is a box of too many pixels; otherwise a new image of the size of
    the box, in which positions of the box inside [im] are copied and the
    others stay blank. *)
Definition crop (im : Image) (box : Z * Z * Z * Z) : result Image :=
  let '(x0, y0, x1, y1) := box in
  if bool_decide (x1 < x0) then
    Raise (ValueError "Coordinate 'right' is less than 'left'")
  else if bool_decide (y1 < y0) then
    Raise (ValueError "Coordinate 'lower' is less than 'upper'")
  else
    match decompression_bomb_check (Z.abs (x1 - x0), Z.abs (y1 - y0)) with
    | Ok _ =>
        Ok {| mode := mode im;
              width := x1 - x0;
              height := y1 - y0;
              rows := (λ y, (λ x, default (blank (mode im)) (getpixel im x y))
                              <$> seqZ x0 (x1 - x0))
                      <$> seqZ y0 (y1 - y0) |}
    | Raise e => Raise e
    | Unfinished => Unfinished
    end.

(** [im.convert(m)]: same size, every pixel converted. *)
Definition convert (im : Image) (m : string) : Image :=
  {| mode := m;
     width := width im;
     height := height im;
     rows := (λ row : list Pixel, convert_pixel (mode im) m <$> row)
               <$> rows im |}.

(** The encoder's test on two frames. *)
Definition same_frame (previous im_frame : Image) : bool :=
  same_picture (mode previous, rows previous) (mode im_frame, rows im_frame).

(** What the encoder writes for the frames that follow [previous], each
    handed over with the display time [duration]: a frame with nothing
    new over the last frame kept is dropped and its time goes to that
    frame. The result pairs each frame written with its display time. *)
Fixpoint merge_frames (duration : Z) (previous : Image * Z)
    (frames : list Image) : list (Image * Z) :=
  match frames with
  | [] => [previous]
  | im_frame :: frames' =>
      if same_frame previous.1 im_frame
      then merge_frames duration (previous.1, previous.2 + duration) frames'
      else previous :: merge_frames duration (im_frame, duration) frames'
  end.

(** The frames of the file that the encoder writes for [first] and
    [append_images], each with the display time that the file holds for
    it. *)
Definition encode_frames (duration : Z) (first : Image)
    (append_images : list Image) : list (Image * Z) :=
  (λ x, (x.1, stored_duration x.2))
    <$> merge_frames duration (first, duration) append_images.

(** No frame of [frames] repeats the one before it, [previous] being
    the one before the first. *)
Fixpoint all_new (previous : Image) (frames : list Image) : bool :=
  match frames with
  | [] => true
  | im_frame :: frames' =>
      negb (same_frame previous im_frame) && all_new im_frame frames'
  end.

(** A frame stored in a file: it decodes to an image, or loading it
    raises. *)
Inductive FrameData : Type :=
  | Decoded (im : Image)
  | Broken (e : exn).

(** What a path holds: something [Image.open] refuses with an exception
    (a directory, a file that is no image, an image without a frame), an
    image with its [info] dictionary, a first frame and the frames
    after it, or an animation as the encoder has written it: the size
    that its header announces, the loop count and the frames, each with
    its display time. *)
Inductive File : Type :=
  | Unreadable (e : exn)
  | Animated (info : gmap string Z) (first : FrameData) (rest : list FrameData)
  | Written (size : Z * Z) (loop : Z) (frames : list (Image * Z)).

(** The file system ([files]; at which paths writing fails and how; the
    other spellings of a path that name the same file) and the events so
    far. *)
Record World : Type := {
  files : gmap string File;
  save_errors : gmap string exn;
  aliases : gmap string (list string);
  trace : list Event
}.

Definition log (ev : Event) (w : World) : World :=
  {| files := files w; save_errors := save_errors w; aliases := aliases w;
     trace := trace w ++ [ev] |}.

(** The paths that name the file at [path]. *)
Definition names_of (w : World) (path : string) : list string :=
  path :: default [] (aliases w !! path).

Definition write_file (path : string) (f : File) (w : World) : World :=
  {| files := foldr (λ p fs, <[p := f]> fs) (files w) (names_of w path);
     save_errors := save_errors w; aliases := aliases w;
     trace := trace w |}.

Definition print (line : string) : M World unit := modify (log (Print line)).

(** [Path(p).exists()] *)
Definition path_exists (p : string) : M World bool :=
  λ w, (Ok (bool_decide (is_Some (files w !! p))), w).

(** The object returned by [Image.open]: the [info] read from the
    header, the frames of the file, the index of the current frame
    ([tell]) and the current frame itself. *)
Record ImageFile : Type := {
  info : gmap string Z;
  file_frames : list FrameData;
  position : Z;
  current_frame : FrameData
}.

Definition n_frames (im : ImageFile) : nat := length (file_frames im).

(** What the decoder finds in a file: an exception, or the [info], the
    first frame and the frames after it. An animation that the encoder
    wrote is read back with the display time of its first frame as
    [duration] (its frames are taken as they were handed to the encoder,
    without the encoder's change of palette, and whatever size the
    header announces). *)
Definition contents (path : string) (f : File)
    : exn + gmap string Z * FrameData * list FrameData :=
  match f with
  | Unreadable e => inl e
  | Animated i first rest => inr (i, first, rest)
  | Written _ loop [] =>
      inl (UnidentifiedImageError
             ("cannot identify image file '" ++ path ++ "'"))
  | Written _ loop ((im, ms) :: more) =>
      inr ({[ "duration" := ms; "loop" := loop ]},
           Decoded im, (λ x, Decoded x.1) <$> more)
  end.

Definition Image_open (path : string) : M World ImageFile :=
  λ w, let w' := log (Open path) w in
       match files w !! path with
       | None =>
           (Raise (FileNotFoundError
                     ("[Errno 2] No such file or directory: '" ++ path ++ "'")),
            w')
       | Some f =>
           match contents path f with
           | inl e => (Raise e, w')
           | inr (i, first, rest) =>
               (Ok {| info := i; file_frames := first :: rest;
                      position := 0; current_frame := first |}, w')
           end
       end.

(** [first.save(fp, save_all=True, append_images=..., duration=...,
    loop=..., optimize=True)], for a path [fp] that names a GIF file (a
    path whose extension Pillow does not know is one at which writing
    fails). The destination is opened for writing first: when that fails
    nothing changes. An empty image is then refused by the encoder: a
    file that was there is left cut to nothing, none is left when there
    was none. Otherwise the destination holds what the encoder makes of
    the frames, under a header with the size of the first frame and the
    loop count, in two bytes each. *)
Definition save (first : Image) (fp : string) (append_images : list Image)
    (duration loop : Z) : M World unit :=
  λ w, let w' := log (Save fp) w in
       match save_errors w !! fp with
       | Some e => (Raise e, w')
       | None =>
           if bool_decide (width first = 0 ∨ height first = 0) then
             (Raise (ValueError "cannot write empty image as GIF"),
              match files w !! fp with
              | Some _ =>
                  write_file fp
                    (Unreadable (UnidentifiedImageError
                                   ("cannot identify image file '" ++ fp ++ "'")))
                    w'
              | None => w'
              end)
           else
             (Ok tt,
              write_file fp
                (Written (o16 (width first), o16 (height first)) (o16 loop)
                         (encode_frames duration first append_images)) w')
       end.

(** ** crop_gif *)

(** The local variables of [crop_gif] that the loop mutates. *)
Record Locals : Type := {
  img : ImageFile;
  frames : list Image
}.

(** [img.copy()] *)
Definition copy : M Locals Image :=
  λ s, match current_frame (img s) with
       | Decoded im => (Ok im, s)
       | Broken e => (Raise e, s)
       end.

(** [img.tell()] *)
Definition tell : M Locals Z := λ s, (Ok (position (img s)), s).

(** [img.seek(k)] *)
Definition seek (k : Z) : M Locals unit :=
  λ s, if bool_decide (k < 0) then
         (Raise (EOFError "attempt to seek outside sequence"), s)
       else
         match file_frames (img s) !! Z.to_nat k with
         | Some fd =>
             (Ok tt,
              {| img := {| info := info (img s);
                           file_frames := file_frames (img s);
                           position := k; current_frame := fd |};
                 frames := frames s |})
         | None => (Raise (EOFError "no more images in GIF file"), s)
         end.

(** [frames.append(x)] *)
Definition append (x : Image) : M Locals unit :=
  modify (λ s, {| img := img s; frames := frames s ++ [x] |}).

(** Lines 35 and 36: convert to RGBA if needed. *)
Definition to_rgba_if_needed (cropped : Image) : Image :=
  if bool_decide (mode cropped ∉ ["RGBA"; "P"])
  then convert cropped "RGBA"
  else cropped.

(** Lines 32 to 36: the value of [cropped_frame] that is appended for
    the frame [current]. *)
Definition cropped_frame (current : Image) (box : Z * Z * Z * Z) : result Image :=
  match crop current box with
  | Ok cropped => Ok (to_rgba_if_needed cropped)
  | Raise e => Raise e
  | Unfinished => Unfinished
  end.

(** [out] is the box of [current] and nothing else: it has the size of
    the box, and each of its positions shows the pixel of [current] at
    the same place in the box, as it is in a mode RGBA or P and converted
    to RGBA from another mode. *)
Definition shows_box (current : Image) (box : Z * Z * Z * Z) (out : Image) : Prop :=
  let '(x0, y0, x1, y1) := box in
  let kept := bool_decide (mode current ∈ ["RGBA"; "P"]) in
  width out = x1 - x0 ∧ height out = y1 - y0 ∧
  mode out = (if kept then mode current else "RGBA") ∧
  ∀ x y, 0 ≤ x < x1 - x0 → 0 ≤ y < y1 - y0 →
    ∃ p, getpixel current (x0 + x) (y0 + y) = Some p ∧
         getpixel out x y =
           Some (if kept then p else convert_pixel (mode current) "RGBA" p).

(** The body of [while True] (lines 28 to 41). *)
Definition loop_body (box : Z * Z * Z * Z) : M Locals unit :=
  current ← copy;
  cropped ← lift (cropped_frame current box);
  append cropped;;
  n ← tell;
  seek (n + 1).

(** [except EOFError: pass]: any other exception goes on. *)
Definition eof_handler : exn → M Locals unit :=
  λ e, if is_EOFError e then ret tt else raise e.

(** The value of [frames] when a statement over the locals is left
    normally. *)
Definition frames_of_run (r : result unit * Locals) : result (list Image) :=
  match r with
  | (Ok _, s) => Ok (frames s)
  | (Raise e, _) => Raise e
  | (Unfinished, _) => Unfinished
  end.

(** [try: while True: ... except EOFError: pass] (lines 26 to 45), run
    from frame 0 with an empty [frames]. No pass of the loop ends on the
    frame it began on without raising, so one pass per frame of the file
    is enough. *)
Definition extract_frames (opened : ImageFile) (box : Z * Z * Z * Z)
    : result (list Image) :=
  frames_of_run
    (try_except (while_true (n_frames opened) (loop_body box)) eof_handler
                {| img := opened; frames := [] |}).

(** The same statement as a recursion over the frames from the current
    one on, [acc] being the frames collected so far. It is not part of
    the script: [extract_frames_collect] below shows that the loop
    computes it. *)
Fixpoint collect (box : Z * Z * Z * Z) (fds : list FrameData)
    (acc : list Image) : result (list Image) :=
  match fds with
  | [] => Ok acc
  | Broken e :: _ => if is_EOFError e then Ok acc else Raise e
  | Decoded current :: fds' =>
      match cropped_frame current box with
      | Ok cropped => collect box fds' (acc ++ [cropped])
      | Raise e => if is_EOFError e then Ok acc else Raise e
      | Unfinished => Unfinished
      end
  end.

Definition crop_gif (input_path output_path : string)
    (left top right bottom : Z) : M World unit :=
  try_except
    (opened ← Image_open input_path;
     let duration := default 100 (info opened !! "duration") in
     let loop := default 0 (info opened !! "loop") in
     frames ← lift (extract_frames opened (left, top, right, bottom));
     match frames with
     | first :: rest =>
         save first output_path rest duration loop;;
         print ("Successfully saved cropped GIF to " ++ output_path)
     | [] => raise (ValueError "No frames were extracted from the GIF")
     end)
    (λ e, print ("Error processing GIF: " ++ str e);; raise e).

(** ** main *)

(** The parsed command line: [args.input], [args.output], [args.left],
    [args.top], [args.right], [args.bottom]. *)
Record Args : Type := {
  input : string;
  output : string;
  args_left : Z;
  args_top : Z;
  args_right : Z;
  args_bottom : Z
}.

(** The body of the [try] of [main] (lines 86 to 94). *)
Definition main_body (args : Args) : M World unit :=
  found ← path_exists (input args);
  (if negb found
   then raise (FileNotFoundError ("Input file not found: " ++ input args))
   else ret tt);;
  lift (validate_dimensions (args_left args) (args_top args)
                            (args_right args) (args_bottom args));;
  crop_gif (input args) (output args)
           (args_left args) (args_top args) (args_right args) (args_bottom args).

(** [main], after the arguments are parsed: the exit status. *)
Definition main (args : Args) : M World Z :=
  try_except (main_body args;; ret 0)
             (λ e, print ("Error: " ++ str e);; ret 1).

(** ** The stages, one by one

    What follows is not the script: it says, stage by stage and frame by
    frame, which failure a run must meet first, in terms of what the file
    system holds, what each frame does when it is loaded and what [crop]
    and the encoder do with it. [main] is compared with it below. *)

(** The frames in playback order, up to the end-of-frames signal: a
    frame whose loading raises anything else fails the decode stage, a
    frame that [crop] refuses fails the crop stage. *)
Fixpoint stage_frames (box : Z * Z * Z * Z) (fds : list FrameData)
    : Stage * exn + list Image :=
  match fds with
  | [] => inr []
  | Broken e :: _ => if is_EOFError e then inr [] else inl (Decode, e)
  | Decoded im :: fds' =>
      match crop im box with
      | Ok cropped =>
          match stage_frames box fds' with
          | inr outs => inr (to_rgba_if_needed cropped :: outs)
          | failed => failed
          end
      | Raise e => inl (Crop, e)
      | Unfinished => inr []
      end
  end.

(** The first failure of a run, with its stage, or [None] when every
    stage succeeds: the input path exists, the rectangle is valid, the
    file opens and its frames up to the end-of-frames signal load, each
    is cropped, they are at least one, and the encoder can write them. *)
Definition first_failure (args : Args) (w : World) : option (Stage * exn) :=
  let box := (args_left args, args_top args, args_right args, args_bottom args) in
  match files w !! input args with
  | None =>
      Some (PathCheck,
            FileNotFoundError ("Input file not found: " ++ input args))
  | Some f =>
      match validate_dimensions (args_left args) (args_top args)
                                (args_right args) (args_bottom args) with
      | Raise e => Some (Validation, e)
      | _ =>
          match contents (input args) f with
          | inl e => Some (Decode, e)
          | inr (_, first, rest) =>
              match stage_frames box (first :: rest) with
              | inl failed => Some failed
              | inr [] =>
                  Some (Decode,
                        ValueError "No frames were extracted from the GIF")
              | inr (out :: _) =>
                  match save_errors w !! output args with
                  | Some e => Some (Encode, e)
                  | None =>
                      if bool_decide (width out = 0 ∨ height out = 0)
                      then Some (Encode,
                                 ValueError "cannot write empty image as GIF")
                      else None
                  end
              end
          end
      end
  end.

End Pipeline.

Arguments Image Pixel : clear implicits.
Arguments FrameData Pixel : clear implicits.
Arguments File Pixel : clear implicits.
Arguments World Pixel : clear implicits.
Arguments ImageFile Pixel : clear implicits.
Arguments Locals Pixel : clear implicits.

(** ** An instance: pixels as tuples of band values

    A pixel is the tuple [getpixel] returns; a blank pixel is zero in
    every band. Conversion to RGBA is given for the modes a GIF decoder
    yields besides P and RGBA (L and RGB) and for 1 and LA; elsewhere
    this instance leaves the pixel alone. Two frames are the same
    picture when they have the same mode and the same pixels. *)
Definition bands (m : string) : nat :=
  if bool_decide (m ∈ ["1"; "L"; "P"; "I"; "F"]) then 1%nat
  else if bool_decide (m ∈ ["LA"; "PA"]) then 2%nat
  else if bool_decide (m ∈ ["RGB"; "YCbCr"; "LAB"; "HSV"]) then 3%nat
  else 4%nat.

Definition tuple_convert (src dst : string) (p : list Z) : list Z :=
  if bool_decide (dst = "RGBA") then
    match p with
    | [v] => if bool_decide (src ∈ ["1"; "L"]) then [v; v; v; 255] else p
    | [l; a] => if bool_decide (src = "LA") then [l; l; l; a] else p
    | [r; g; b] => if bool_decide (src = "RGB") then [r; g; b; 255] else p
    | _ => p
    end
  else p.

#[global] Instance tuple_imaging : Imaging (list Z) :=
  {| blank := λ m, replicate (bands m) 0;
     convert_pixel := tuple_convert;
     same_picture := λ a b, bool_decide (a = b) |}.

(** ** Sample inputs

    A frame whose pixel at [(x, y)] is [x + 16 * y] in every band, and a
    file system holding a three-frame animation of 10 by 10 frames with a
    200 ms duration and no loop entry, another whose first frame cannot
    be loaded, and a one-frame RGB image. *)
Definition ramp (m : string) (w h : Z) : Image (list Z) :=
  {| mode := m; width := w; height := h;
     rows := (λ y, (λ x, replicate (bands m) (x + 16 * y)) <$> seqZ 0 w)
             <$> seqZ 0 h |}.

Definition sample_world : World (list Z) :=
  {| files :=
       {[ "in.gif" := Animated {[ "duration" := 200 ]}
                        (Decoded (ramp "P" 10 10))
                        [Decoded (ramp "RGB" 10 10); Decoded (ramp "RGBA" 10 10)];
          "cut.gif" := Animated ∅ (Broken (EOFError "no more images in GIF file")) [];
          "rgb.gif" := Animated ∅ (Decoded (ramp "RGB" 1 1)) [] ]};
     save_errors := ∅;
     aliases := ∅;
     trace := [] |}.

Definition sample_args (input_path : string) (box : Z * Z * Z * Z) : Args :=
  let '(x0, y0, x1, y1) := box in
  {| input := input_path; output := "out.gif";
     args_left := x0; args_top := y0; args_right := x1; args_bottom := y1 |}.

(** Mode and size of a frame. *)
Definition shape (im : Image (list Z)) : string * Z * Z :=
  (mode im, width im, height im).

(** A file system with an animation whose third frame ends the stream
    early, and one whose second frame cannot be read. *)
Definition faulty_world : World (list Z) :=
  {| files :=
       {[ "trunc.gif" := Animated ∅ (Decoded (ramp "P" 4 4))
                           [Decoded (ramp "RGB" 4 4);
                            Broken (EOFError "no more images in GIF file");
                            Decoded (ramp "P" 4 4)];
          "bad.gif" := Animated ∅ (Decoded (ramp "P" 4 4))
                         [Broken (OSError "image file is truncated")] ]};
     save_errors := ∅;
     aliases := ∅;
     trace := [] |}.

(** A frame in mode P with the value [v] in its top left corner and the
    ramp elsewhere. *)
Definition marked (v : Z) (w h : Z) : Image (list Z) :=
  {| mode := "P"; width := w; height := h;
     rows := (λ y, (λ x, [if bool_decide (x = 0 ∧ y = 0) then v
                          else x + 16 * y]) <$> seqZ 0 w)
             <$> seqZ 0 h |}.

(** A file system with two animations of 4 by 4 frames in mode P and a
    200 ms duration: in "still.gif" the third frame repeats the second,
    in "moving.gif" the three frames differ in the top left corner. The
    path "./still.gif" is another spelling of "still.gif". *)
Definition repeat_world : World (list Z) :=
  {| files :=
       {[ "still.gif" := Animated {[ "duration" := 200 ]}
                           (Decoded (marked 1 4 4))
                           [Decoded (marked 2 4 4); Decoded (marked 2 4 4)];
          "./still.gif" := Animated {[ "duration" := 200 ]}
                             (Decoded (marked 1 4 4))
                             [Decoded (marked 2 4 4); Decoded (marked 2 4 4)];
          "moving.gif" := Animated {[ "duration" := 200 ]}
                            (Decoded (marked 1 4 4))
                            [Decoded (marked 2 4 4); Decoded (marked 3 4 4)] ]};
     save_errors := ∅;
     aliases := {[ "still.gif" := ["./still.gif"];
                   "./still.gif" := ["still.gif"] ]};
     trace := [] |}.

(** ** Theorems *)

(** *** Images, crop and convert *)

Section ImageFacts.
Context {Pixel : Type} `{Imaging Pixel}.
Implicit Types (im out : Image Pixel) (x y : Z).

Lemma getpixel_Some im x y p :
  getpixel im x y = Some p →
  0 ≤ x < width im ∧ 0 ≤ y < height im.
Proof. unfold getpixel. case_bool_decide; [done|discriminate]. Qed.

Lemma getpixel_is_Some im x y :
  wf_image im → 0 ≤ x < width im → 0 ≤ y < height im →
  is_Some (getpixel im x y).
Proof.
  intros (_ & _ & Hlen & Hrows & _) Hx Hy. unfold getpixel.
  rewrite bool_decide_eq_true_2 by done.
  destruct (lookup_lt_is_Some_2 (rows im) (Z.to_nat y)) as [row Hrow]; [lia|].
  rewrite Hrow; cbn.
  apply lookup_lt_is_Some_2.
  rewrite (Forall_lookup_1 _ _ _ _ Hrows Hrow). lia.
Qed.

(** An image in good shape is determined by its mode, its size and its
    pixels. *)
Lemma image_ext im out :
  wf_image im → wf_image out →
  mode im = mode out → width im = width out → height im = height out →
  (∀ x y, 0 ≤ x < width im → 0 ≤ y < height im →
          getpixel im x y = getpixel out x y) →
  im = out.
Proof.
  destruct im as [m w h rs], out as [m' w' h' rs']; cbn.
  intros (Hw & Hh & Hlen & Hrows & _) (_ & _ & Hlen' & Hrows' & _); cbn in *.
  intros -> -> -> Hpix. f_equal.
  apply list_eq_same_length with (Z.to_nat h'); [done..|].
  intros j row row' Hj Hrow Hrow'.
  apply list_eq_same_length with (Z.to_nat w').
  - exact (Forall_lookup_1 _ _ _ _ Hrows' Hrow').
  - exact (Forall_lookup_1 _ _ _ _ Hrows Hrow).
  - intros i p p' Hi Hp Hp'.
    specialize (Hpix (Z.of_nat i) (Z.of_nat j)).
    unfold getpixel in Hpix; cbn in Hpix.
    rewrite !bool_decide_eq_true_2, !Nat2Z.id in Hpix by lia.
    rewrite Hrow, Hrow' in Hpix; cbn in Hpix.
    specialize (Hpix ltac:(lia) ltac:(lia)). congruence.
Qed.

(** The guard passes a size of up to twice [MAX_IMAGE_PIXELS] pixels, a
    side of length 0 counting as 1, and refuses every other size. *)
Lemma decompression_bomb_check_Ok (w h : Z) :
  decompression_bomb_check (w, h) = Ok tt ↔
  Z.max 1 w * Z.max 1 h ≤ 2 * MAX_IMAGE_PIXELS.
Proof.
  unfold decompression_bomb_check; cbn [fst snd]. case_bool_decide; split.
  - done.
  - lia.
  - lia.
  - done.
Qed.



(** A size that fits into one that passes the guard passes it. *)
Lemma decompression_bomb_check_mono (w h w' h' : Z) :
  w' ≤ w → h' ≤ h →
  decompression_bomb_check (w, h) = Ok tt →
  decompression_bomb_check (w', h') = Ok tt.
Proof.
  rewrite !decompression_bomb_check_Ok. intros Hw Hh Hp.
  etrans; [|exact Hp]. apply Z.mul_le_mono_nonneg; lia.
Qed.

(** A box that is not reversed and passes the pixel-count guard is
    cropped without an exception, and the result has the size of the
    box. *)
Lemma crop_Ok im x0 y0 x1 y1 :
  x0 ≤ x1 → y0 ≤ y1 →
  decompression_bomb_check (x1 - x0, y1 - y0) = Ok tt →
  ∃ out, crop im (x0, y0, x1, y1) = Ok out ∧
         mode out = mode im ∧ width out = x1 - x0 ∧ height out = y1 - y0 ∧
         wf_image out.
Proof.
  intros Hx Hy Hpix. unfold crop.
  rewrite !bool_decide_eq_false_2 by lia.
  rewrite !Z.abs_eq by lia. rewrite Hpix.
  eexists; split; [done|]. split; [done|]. split; [done|]. split; [done|].
  split; [cbn; lia|]. split; [cbn; lia|]. split; [|split]; cbn; [| |done].
  - by rewrite length_fmap, length_seqZ.
  - apply Forall_fmap, Forall_forall. intros y _. cbn.
    by rewrite length_fmap, length_seqZ.
Qed.

(** What [crop] returns when it returns. *)
Lemma crop_Ok_inv im x0 y0 x1 y1 out :
  crop im (x0, y0, x1, y1) = Ok out →
  x0 ≤ x1 ∧ y0 ≤ y1 ∧
  decompression_bomb_check (x1 - x0, y1 - y0) = Ok tt ∧
  mode out = mode im ∧
  width out = x1 - x0 ∧ height out = y1 - y0 ∧ wf_image out.
Proof.
  intros Hc.
  assert (x0 ≤ x1 ∧ y0 ≤ y1) as [Hx Hy].
  { unfold crop in Hc. repeat case_bool_decide; try discriminate. lia. }
  assert (decompression_bomb_check (x1 - x0, y1 - y0) = Ok tt) as Hpix.
  { unfold crop in Hc. rewrite !Z.abs_eq in Hc by lia.
    repeat case_bool_decide; try discriminate.
    by destruct (decompression_bomb_check _) as [[]| |]. }
  destruct (crop_Ok im x0 y0 x1 y1) as (out' & Hc' & ?); [done..|].
  rewrite Hc in Hc'. injection Hc' as <-. tauto.
Qed.

(** Position [(x, y)] of the crop shows position [(x0 + x, y0 + y)] of the
    source when the source has it, and a blank pixel otherwise. *)
Lemma crop_getpixel im x0 y0 x1 y1 out x y :
  crop im (x0, y0, x1, y1) = Ok out →
  0 ≤ x < x1 - x0 → 0 ≤ y < y1 - y0 →
  getpixel out x y =
    Some (default (blank (mode im)) (getpixel im (x0 + x) (y0 + y))).
Proof.
  unfold crop. repeat case_bool_decide; try discriminate.
  destruct (decompression_bomb_check _); try discriminate.
  intros [= <-] Hx Hy. unfold getpixel at 1; cbn.
  rewrite bool_decide_eq_true_2 by lia.
  rewrite list_lookup_fmap, lookup_seqZ_lt by lia; cbn.
  rewrite list_lookup_fmap, lookup_seqZ_lt by lia; cbn.
  by rewrite !Z2Nat.id by lia.
Qed.

Lemma crop_reversed im x0 y0 x1 y1 :
  x1 < x0 ∨ y1 < y0 → ∃ msg, crop im (x0, y0, x1, y1) = Raise (ValueError msg).
Proof.
  intros Hrev. unfold crop. repeat case_bool_decide; eauto. lia.
Qed.


(** [crop] finishes, and never raises [EOFError]. *)
Lemma crop_finishes im (box : Z * Z * Z * Z) : crop im box ≠ Unfinished.
Proof.
  unfold crop, decompression_bomb_check. destruct box as [[[x0 y0] x1] y1].
  repeat case_bool_decide; discriminate.
Qed.

Lemma crop_Raise im (box : Z * Z * Z * Z) e :
  crop im box = Raise e → is_EOFError e = false.
Proof.
  unfold crop, decompression_bomb_check. destruct box as [[[x0 y0] x1] y1].
  repeat case_bool_decide; by intros [= <-].
Qed.

(** Cropping to the whole frame gives the frame back. *)
Lemma crop_full im :
  wf_image im → crop im (0, 0, width im, height im) = Ok im.
Proof.
  intros Hwf.
  destruct (crop_Ok im 0 0 (width im) (height im))
    as (out & Hcrop & Hm & Hw & Hh & Hout).
  { apply Hwf. } { apply Hwf. }
  { rewrite !Z.sub_0_r. apply Hwf. }
  rewrite Hcrop. f_equal. rewrite Z.sub_0_r in Hw, Hh.
  apply image_ext; try done.
  intros x y Hx Hy. rewrite Hw in Hx. rewrite Hh in Hy.
  rewrite (crop_getpixel _ _ _ _ _ _ _ _ Hcrop), !Z.add_0_l by lia.
  by destruct (getpixel_is_Some im x y) as [p ->].
Qed.

Lemma convert_wf im m : wf_image im → wf_image (convert im m).
Proof.
  intros (Hw & Hh & Hlen & Hrows & Hpix). repeat split; cbn; try done.
  - by rewrite length_fmap.
  - apply Forall_fmap. eapply Forall_impl; [exact Hrows|].
    intros row Hrow. cbn. by rewrite length_fmap.
Qed.

Lemma convert_getpixel im m x y :
  getpixel (convert im m) x y = convert_pixel (mode im) m <$> getpixel im x y.
Proof.
  unfold getpixel; cbn. case_bool_decide; [|done].
  rewrite list_lookup_fmap. destruct (rows im !! Z.to_nat y) as [row|]; cbn; [|done].
  by rewrite list_lookup_fmap.
Qed.

End ImageFacts.

(** *** The frame loop *)

Section LoopFacts.
Context {Pixel : Type} `{Imaging Pixel}.
Implicit Types (im out current cropped : Image Pixel) (box : Z * Z * Z * Z).
Implicit Types (fd : FrameData Pixel) (fds : list (FrameData Pixel)).
Implicit Types (acc : list (Image Pixel)).

Lemma bind_run {S A B} (m : M S A) (k : A → M S B) (s : S) :
  (m ≫= k) s = match m s with
                | (Ok a, s') => k a s'
                | (Raise e, s') => (Raise e, s')
                | (Unfinished, s') => (Unfinished, s')
                end.
Proof. reflexivity. Qed.

(** The crop step raises nothing but what [crop] raises, and always
    finishes. *)
Lemma cropped_frame_finishes current box :
  cropped_frame current box ≠ Unfinished.
Proof.
  unfold cropped_frame. pose proof (crop_finishes current box).
  by destruct (crop current box).
Qed.

Lemma cropped_frame_Raise current box e :
  cropped_frame current box = Raise e → crop current box = Raise e.
Proof.
  unfold cropped_frame. destruct (crop current box); [done| |done].
  by intros [= <-].
Qed.

(** One pass of the loop body, by the current frame. *)
Lemma loop_body_Broken box (s : Locals Pixel) e :
  current_frame (img s) = Broken e → loop_body box s = (Raise e, s).
Proof. intros Hc. unfold loop_body, copy. rewrite bind_run. by rewrite Hc. Qed.

Lemma loop_body_Decoded box (s : Locals Pixel) current :
  current_frame (img s) = Decoded current →
  loop_body box s =
    match cropped_frame current box with
    | Ok cropped =>
        seek (position (img s) + 1)
             {| img := img s; frames := frames s ++ [cropped] |}
    | Raise e => (Raise e, s)
    | Unfinished => (Unfinished, s)
    end.
Proof.
  intros Hc. unfold loop_body, copy. rewrite bind_run, Hc.
  rewrite bind_run. unfold lift.
  by destruct (cropped_frame current box).
Qed.

Lemma while_true_collect box fuel i fds (p : nat) fd acc :
  fds !! p = Some fd →
  (length fds - p ≤ fuel)%nat →
  frames_of_run
    (try_except (while_true fuel (loop_body box)) eof_handler
       {| img := {| info := i; file_frames := fds;
                    position := Z.of_nat p; current_frame := fd |};
          frames := acc |})
  = collect box (drop p fds) acc.
Proof.
  revert p fd acc. induction fuel as [|fuel IH]; intros p fd acc Hfd Hfuel.
  { apply lookup_lt_Some in Hfd. lia. }
  rewrite (drop_S _ _ _ Hfd). cbn [while_true collect].
  unfold try_except. rewrite bind_run.
  destruct fd as [current|e].
  - rewrite (loop_body_Decoded _ _ current) by done. cbn [img frames position].
    destruct (cropped_frame current box) as [cropped|e|] eqn:Hcrop; cbn.
    + unfold seek; cbn [img file_frames frames info].
      rewrite bool_decide_eq_false_2 by lia.
      replace (Z.to_nat (Z.of_nat p + 1)) with (S p) by lia.
      destruct (fds !! S p) as [fd'|] eqn:Hnext.
      * replace (Z.of_nat p + 1) with (Z.of_nat (S p)) by lia.
        apply (IH (S p) fd'); [done|lia].
      * cbn. apply lookup_ge_None in Hnext. by rewrite drop_ge.
    + unfold eof_handler. by destruct (is_EOFError e).
    + done.
  - rewrite (loop_body_Broken _ _ e) by done. cbn.
    unfold eof_handler. by destruct (is_EOFError e).
Qed.

(** The loop of [crop_gif], run on a freshly opened file, is [collect]
    over its frames. In particular it never runs out of fuel. *)
Lemma extract_frames_collect box i fd fds :
  extract_frames {| info := i; file_frames := fd :: fds;
                    position := 0; current_frame := fd |} box
  = collect box (fd :: fds) [].
Proof.
  apply (while_true_collect box (length (fd :: fds)) i (fd :: fds) 0 fd []);
    [done|cbn; lia].
Qed.

Lemma collect_finishes box fds acc : collect box fds acc ≠ Unfinished.
Proof.
  revert acc. induction fds as [|[current|e] fds IH]; intros acc; cbn.
  - done.
  - pose proof (cropped_frame_finishes current box).
    destruct (cropped_frame current box) as [cropped|e|]; [apply IH| |done].
    by destruct (is_EOFError e).
  - by destruct (is_EOFError e).
Qed.

(** When every frame decodes and is cropped without an exception, the
    loop yields the cropped frames, one per frame, in order. *)
Lemma collect_Decoded box (ims outs : list (Image Pixel)) acc :
  Forall2 (λ im out, cropped_frame im box = Ok out) ims outs →
  collect box (Decoded <$> ims) acc = Ok (acc ++ outs)%list.
Proof.
  intros Hall. revert acc.
  induction Hall as [|im out ims outs Him _ IH]; intros acc; cbn.
  - by rewrite app_nil_r.
  - rewrite Him, IH. by rewrite <- app_assoc.
Qed.

End LoopFacts.

(** *** The encoder and the file system *)

Section EncoderFacts.
Context {Pixel : Type} `{Imaging Pixel}.
Implicit Types (im out first : Image Pixel) (w : World Pixel).
Implicit Types (frames rest : list (Image Pixel)) (f : File Pixel).

(** Numbers that fit into two bytes are written as they are, and so are
    display times of whole hundredths of a second up to 655350 ms. *)
Lemma o16_small (i : Z) : 0 ≤ i ≤ 65535 → o16 i = i.
Proof.
  intros Hi. unfold o16. change 65535 with (Z.ones 16).
  rewrite Z.land_ones by lia. apply Z.mod_small.
  change (2 ^ 16) with 65536. lia.
Qed.

Lemma stored_duration_small (ms : Z) :
  0 ≤ ms ≤ 655350 → (10 | ms) → stored_duration ms = ms.
Proof.
  intros Hms [q ->]. unfold stored_duration.
  rewrite Z.quot_mul by lia. rewrite o16_small by lia. lia.
Qed.

Lemma merge_frames_length (d : Z) (previous : Image Pixel * Z) frames :
  (1 ≤ length (merge_frames d previous frames) ≤ S (length frames))%nat.
Proof.
  revert previous. induction frames as [|im frames IH]; intros previous; cbn.
  - lia.
  - destruct (same_frame previous.1 im); cbn.
    + specialize (IH (previous.1, previous.2 + d)). lia.
    + specialize (IH (im, d)). lia.
Qed.

(** Merging keeps the total display time. *)
Lemma merge_frames_total (d : Z) (previous : Image Pixel * Z) frames :
  foldr Z.add 0 ((merge_frames d previous frames).*2)
  = previous.2 + d * Z.of_nat (length frames).
Proof.
  revert previous. induction frames as [|im frames IH]; intros previous.
  - cbn. lia.
  - cbn [merge_frames]. destruct (same_frame previous.1 im).
    + rewrite IH. cbn. lia.
    + cbn [fmap list_fmap foldr]. rewrite IH. cbn. lia.
Qed.

(** Every display time written is the time handed over, once for each
    frame that the written frame stands for. *)
Lemma merge_frames_times (d : Z) (previous : Image Pixel * Z) frames :
  (∃ k : nat, previous.2 = d * Z.of_nat (S k)) →
  Forall (λ x, ∃ k : nat, x.2 = d * Z.of_nat (S k))
         (merge_frames d previous frames).
Proof.
  revert previous. induction frames as [|im frames IH]; intros previous Hp.
  - by apply Forall_singleton.
  - cbn [merge_frames]. destruct (same_frame previous.1 im).
    + apply IH. destruct Hp as [k Hk]. exists (S k). cbn [snd]. lia.
    + apply Forall_cons. split; [done|]. apply IH. exists 0%nat. cbn [snd]. lia.
Qed.

(** The frames written are frames handed over, in the order in which
    they were handed over. *)
Lemma merge_frames_sublist (d : Z) (previous : Image Pixel * Z) frames :
  (merge_frames d previous frames).*1 `sublist_of` previous.1 :: frames.
Proof.
  revert previous. induction frames as [|im frames IH]; intros previous.
  - done.
  - cbn [merge_frames]. destruct (same_frame previous.1 im).
    + specialize (IH (previous.1, previous.2 + d)). cbn [fst] in IH.
      etrans; [exact IH|]. apply sublist_skip, sublist_cons. done.
    + cbn [fmap list_fmap]. apply sublist_skip. apply (IH (im, d)).
Qed.

(** When no frame repeats the one before it, all are written, each with
    the time handed over. *)
Lemma merge_frames_all_new (d : Z) (previous : Image Pixel * Z) frames :
  all_new previous.1 frames = true →
  merge_frames d previous frames = previous :: ((λ im, (im, d)) <$> frames).
Proof.
  revert previous. induction frames as [|im frames IH]; intros previous; cbn.
  - done.
  - intros [Hnew Hrest]%andb_true_iff.
    apply negb_true_iff in Hnew. rewrite Hnew. f_equal. by apply (IH (im, d)).
Qed.

(** When some frame repeats the one before it, fewer frames are written
    than were handed over. *)
Lemma merge_frames_repeat (d : Z) (previous : Image Pixel * Z) frames :
  all_new previous.1 frames = false →
  (length (merge_frames d previous frames) < S (length frames))%nat.
Proof.
  revert previous. induction frames as [|im frames IH]; intros previous; cbn.
  - done.
  - destruct (same_frame previous.1 im) eqn:Hsame; cbn.
    + intros _.
      pose proof (merge_frames_length d (previous.1, previous.2 + d) frames).
      lia.
    + intros Hrest. specialize (IH (im, d) Hrest). lia.
Qed.

(** With a duration of whole hundredths of a second, every display time
    asked of the encoder is one, and none exceeds the total. *)
Lemma merge_frames_bounded (d : Z) (previous : Image Pixel * Z) frames :
  0 ≤ d → (10 | d) → 0 ≤ previous.2 → (10 | previous.2) →
  Forall (λ x, 0 ≤ x.2 ≤ previous.2 + d * Z.of_nat (length frames) ∧ (10 | x.2))
         (merge_frames d previous frames).
Proof.
  intros Hd Hdiv. revert previous.
  induction frames as [|im frames IH]; intros previous Hp Hpdiv.
  - apply Forall_singleton. cbn. split; [lia|done].
  - cbn [merge_frames]. destruct (same_frame previous.1 im).
    + eapply Forall_impl.
      * apply (IH (previous.1, previous.2 + d)); cbn [snd];
          [lia|by apply Z.divide_add_r].
      * intros x [Hx Hxdiv]. cbn [snd length] in *. split; [lia|done].
    + apply Forall_cons. split.
      * cbn [length]. split; [nia|done].
      * eapply Forall_impl; [apply (IH (im, d)); cbn [snd]; [lia|done]|].
        intros x [Hx Hxdiv]. cbn [snd length] in *. split; [lia|done].
Qed.

(** The frames of the file are those that the merge keeps, each with
    the display time that the file holds for it. *)
Lemma encode_frames_fst (d : Z) first rest :
  (encode_frames d first rest).*1 = (merge_frames d (first, d) rest).*1.
Proof.
  unfold encode_frames. rewrite <- list_fmap_compose. by apply list_fmap_ext.
Qed.

Lemma encode_frames_length (d : Z) first rest :
  length (encode_frames d first rest) = length (merge_frames d (first, d) rest).
Proof. unfold encode_frames. by rewrite length_fmap. Qed.

(** When the duration is a whole number of hundredths of a second and
    the animation plays for no more than 655350 ms, the file holds the
    display times as they were asked for. *)
Lemma encode_frames_exact (d : Z) first rest :
  0 ≤ d → (10 | d) → d * Z.of_nat (S (length rest)) ≤ 655350 →
  encode_frames d first rest = merge_frames d (first, d) rest.
Proof.
  intros Hd Hdiv Htotal. unfold encode_frames.
  pose proof (merge_frames_bounded d (first, d) rest Hd Hdiv Hd Hdiv) as Hb.
  cbn [snd] in Hb.
  induction Hb as [|[im ms] xs [Hms Hmsdiv] _ IH]; cbn; [done|].
  cbn [snd] in Hms, Hmsdiv. rewrite stored_duration_small by (lia || done).
  by rewrite IH.
Qed.

Lemma lookup_foldr_insert (paths : list string) f (m : gmap string (File Pixel))
    (p : string) :
  foldr (λ q fs, <[q := f]> fs) m paths !! p =
    if bool_decide (p ∈ paths) then Some f else m !! p.
Proof.
  induction paths as [|q paths IH]; cbn.
  - done.
  - destruct (decide (q = p)) as [->|Hne].
    + rewrite lookup_insert_eq. by rewrite bool_decide_eq_true_2 by set_solver.
    + rewrite lookup_insert_ne, IH by done.
      rewrite (bool_decide_ext (p ∈ q :: paths) (p ∈ paths)); [done|].
      rewrite elem_of_cons. split; [by intros [->|?]|by right].
Qed.

Lemma lookup_write_file (path p : string) f w :
  files (write_file path f w) !! p =
    if bool_decide (p ∈ names_of w path) then Some f else files w !! p.
Proof. apply lookup_foldr_insert. Qed.

Lemma lookup_written (path : string) f line w :
  files (log (Print line) (write_file path f w)) !! path = Some f.
Proof.
  cbn [log files]. rewrite lookup_write_file.
  rewrite bool_decide_eq_true_2; [done|]. unfold names_of. set_solver.
Qed.

(** [save] on a destination that can be written, with a first frame that
    is not empty. *)
Lemma save_Ok first (fp : string) rest (d l : Z) w :
  save_errors w !! fp = None →
  0 < width first → 0 < height first →
  save first fp rest d l w =
    (Ok tt, write_file fp (Written (o16 (width first), o16 (height first))
                                   (o16 l) (encode_frames d first rest))
                       (log (Save fp) w)).
Proof.
  intros Herr Hw Hh. unfold save. rewrite Herr.
  by rewrite bool_decide_eq_false_2 by lia.
Qed.

Lemma save_Ok_inv first (fp : string) rest (d l : Z) w w2 :
  save first fp rest d l w = (Ok tt, w2) →
  save_errors w !! fp = None ∧ width first ≠ 0 ∧ height first ≠ 0 ∧
  w2 = write_file fp (Written (o16 (width first), o16 (height first))
                              (o16 l) (encode_frames d first rest))
                  (log (Save fp) w).
Proof.
  unfold save. destruct (save_errors w !! fp); [done|].
  case_bool_decide; [done|]. intros [= <-]. split; [done|]. tauto.
Qed.

Lemma save_finishes first (fp : string) rest (d l : Z) w :
  (save first fp rest d l w).1 ≠ Unfinished.
Proof.
  unfold save. destruct (save_errors w !! fp); [done|]. by case_bool_decide.
Qed.

(** Whatever [save] does, it logs one event, and changes no path but
    those that name the destination. *)
Lemma save_trace first (fp : string) rest (d l : Z) w :
  trace (save first fp rest d l w).2 = (trace w ++ [Save fp])%list.
Proof.
  unfold save. destruct (save_errors w !! fp); [done|].
  case_bool_decide; [|done]. by destruct (files w !! fp).
Qed.

Lemma save_other_paths first (fp p : string) rest (d l : Z) w :
  p ∉ names_of w fp →
  files (save first fp rest d l w).2 !! p = files w !! p.
Proof.
  intros Hp. unfold save. destruct (save_errors w !! fp); [done|].
  case_bool_decide.
  - destruct (files w !! fp); [|done]. cbn [snd].
    rewrite lookup_write_file. by rewrite bool_decide_eq_false_2.
  - cbn [snd]. rewrite lookup_write_file. by rewrite bool_decide_eq_false_2.
Qed.

End EncoderFacts.

(** *** crop_gif and main, step by step *)

Section PipelineFacts.
Context {Pixel : Type} `{Imaging Pixel}.
Implicit Types (im out current cropped : Image Pixel) (box : Z * Z * Z * Z).
Implicit Types (w : World Pixel) (args : Args).

Lemma to_rgba_if_needed_size cropped :
  width (to_rgba_if_needed cropped) = width cropped ∧
  height (to_rgba_if_needed cropped) = height cropped.
Proof. unfold to_rgba_if_needed. by case_bool_decide. Qed.

Lemma to_rgba_if_needed_wf cropped :
  wf_image cropped → wf_image (to_rgba_if_needed cropped).
Proof.
  unfold to_rgba_if_needed. case_bool_decide; [apply convert_wf|done].
Qed.




Lemma fst_timed (d : Z) (frames : list (Image Pixel)) :
  ((λ im, (im, d)) <$> frames).*1 = frames.
Proof.
  induction frames as [|im frames IH]; cbn; [done|]. by f_equal.
Qed.

Lemma snd_timed (d : Z) (frames : list (Image Pixel)) :
  Forall (λ x : Image Pixel * Z, x.2 = d) ((λ im, (im, d)) <$> frames).
Proof. apply Forall_fmap, Forall_forall. done. Qed.

(** [crop_gif] by cases: on what the input path holds, on what the loop
    yields and on what the encoder does. *)
Lemma crop_gif_unfold (input_path output_path : string) (l t r b : Z) w :
  crop_gif input_path output_path l t r b w =
  let failed e w' :=
    (Raise e, log (Print ("Error processing GIF: " ++ str e)) w') in
  let w1 := log (Open input_path) w in
  match files w !! input_path with
  | None =>
      failed (FileNotFoundError
                ("[Errno 2] No such file or directory: '" ++ input_path ++ "'")) w1
  | Some f =>
      match contents input_path f with
      | inl e => failed e w1
      | inr (i, fd, fds) =>
          match collect (l, t, r, b) (fd :: fds) [] with
          | Ok [] =>
              failed (ValueError "No frames were extracted from the GIF") w1
          | Ok (first :: rest) =>
              match save first output_path rest
                         (default 100 (i !! "duration"))
                         (default 0 (i !! "loop")) w1 with
              | (Ok _, w2) =>
                  (Ok tt,
                   log (Print ("Successfully saved cropped GIF to "
                               ++ output_path)) w2)
              | (Raise e, w2) => failed e w2
              | (Unfinished, w2) => (Unfinished, w2)
              end
          | Raise e => failed e w1
          | Unfinished => (Unfinished, w1)
          end
      end
  end.
Proof.
  unfold crop_gif, try_except. rewrite bind_run. unfold Image_open.
  destruct (files w !! input_path) as [f|]; [|done].
  destruct (contents input_path f) as [e|[[i fd] fds]]; [done|].
  cbn beta iota. rewrite bind_run. unfold lift. cbn [info].
  rewrite extract_frames_collect.
  destruct (collect _ _ _) as [[|first rest]|e|]; [done| |done..].
  rewrite bind_run.
  by destruct (save _ _ _ _ _ _) as [[[]|e|] w2].
Qed.

(** [crop_gif] always finishes: the unrolling of its loop is long
    enough on every input. *)
Lemma crop_gif_finishes (input_path output_path : string) (l t r b : Z) w :
  (crop_gif input_path output_path l t r b w).1 ≠ Unfinished.
Proof.
  rewrite crop_gif_unfold; cbn zeta.
  destruct (files w !! input_path) as [f|]; [|done].
  destruct (contents input_path f) as [e|[[i fd] fds]]; [done|].
  pose proof (collect_finishes (l, t, r, b) (fd :: fds) []) as Hfin.
  destruct (collect _ _ _) as [[|first rest]|e|]; [done| |done..].
  pose proof (save_finishes first output_path rest
                (default 100 (i !! "duration")) (default 0 (i !! "loop"))
                (log (Open input_path) w)) as Hsave.
  by destruct (save _ _ _ _ _ _) as [[[]|e|] w2].
Qed.

(** The run on an input whose frames all decode and are cropped without
    an exception to frames that are not empty, to an output that can be
    written. *)
Lemma crop_gif_Decoded (input_path output_path : string) (l t r b : Z) w
    i (f0 o0 : Image Pixel) (fs os : list (Image Pixel)) :
  files w !! input_path = Some (Animated i (Decoded f0) (Decoded <$> fs)) →
  Forall2 (λ im out, cropped_frame im (l, t, r, b) = Ok out) (f0 :: fs) (o0 :: os) →
  0 < width o0 → 0 < height o0 →
  save_errors w !! output_path = None →
  crop_gif input_path output_path l t r b w =
    (Ok tt,
     log (Print ("Successfully saved cropped GIF to " ++ output_path))
       (write_file output_path
          (Written (o16 (width o0), o16 (height o0))
                   (o16 (default 0 (i !! "loop")))
                   (encode_frames (default 100 (i !! "duration")) o0 os))
          (log (Save output_path) (log (Open input_path) w)))).
Proof.
  intros Hin Hall Hw Hh Hout. rewrite crop_gif_unfold, Hin; cbn zeta.
  cbn [contents].
  change (Decoded f0 :: (Decoded <$> fs)) with (Decoded <$> f0 :: fs).
  rewrite (collect_Decoded _ _ _ _ Hall); cbn [app].
  by rewrite save_Ok.
Qed.

Lemma validate_dimensions_finishes (l t r b : Z) :
  validate_dimensions l t r b ≠ Unfinished.
Proof. unfold validate_dimensions. by repeat case_match. Qed.


Lemma main_body_unfold args w :
  main_body args w =
  match files w !! input args with
  | None =>
      (Raise (FileNotFoundError ("Input file not found: " ++ input args)), w)
  | Some _ =>
      match validate_dimensions (args_left args) (args_top args)
                                (args_right args) (args_bottom args) with
      | Ok _ => crop_gif (input args) (output args) (args_left args)
                  (args_top args) (args_right args) (args_bottom args) w
      | Raise e => (Raise e, w)
      | Unfinished => (Unfinished, w)
      end
  end.
Proof.
  unfold main_body, path_exists. rewrite bind_run.
  destruct (files w !! input args) as [f|] eqn:Hf.
  - rewrite bool_decide_eq_true_2 by eauto. cbn [negb].
    rewrite !bind_run. unfold lift; cbn.
    by destruct (validate_dimensions _ _ _ _).
  - rewrite bool_decide_eq_false_2 by (by intros [??]). done.
Qed.

Lemma main_unfold args w :
  main args w =
  match main_body args w with
  | (Ok _, w') => (Ok 0, w')
  | (Raise e, w') => (Ok 1, log (Print ("Error: " ++ str e)) w')
  | (Unfinished, w') => (Unfinished, w')
  end.
Proof.
  unfold main, try_except. rewrite bind_run.
  by destruct (main_body args w) as [[[]|e|] w'].
Qed.

Lemma main_body_finishes args w : (main_body args w).1 ≠ Unfinished.
Proof.
  rewrite main_body_unfold.
  destruct (files w !! input args); [|done].
  pose proof (validate_dimensions_finishes (args_left args) (args_top args)
                (args_right args) (args_bottom args)).
  destruct (validate_dimensions _ _ _ _); [apply crop_gif_finishes|done..].
Qed.

(** The loop, read stage by stage. *)
Lemma collect_stage_frames box (fds : list (FrameData Pixel))
    (acc : list (Image Pixel)) :
  collect box fds acc =
    match stage_frames box fds with
    | inl (_, e) => Raise e
    | inr outs => Ok (acc ++ outs)%list
    end.
Proof.
  revert acc. induction fds as [|[current|e] fds IH]; intros acc; cbn.
  - by rewrite app_nil_r.
  - unfold cropped_frame.
    pose proof (crop_finishes current box) as Hfin.
    destruct (crop current box) as [cropped|e|] eqn:Hcrop; [| |done].
    + rewrite IH. destruct (stage_frames box fds) as [[st e]|outs]; [done|].
      by rewrite <- app_assoc.
    + by rewrite (crop_Raise _ _ _ Hcrop).
  - destruct (is_EOFError e); [|done]. by rewrite app_nil_r.
Qed.

(** [main]'s body against the stages: it returns normally when no stage
    fails, and otherwise raises the exception of the first failure. *)
Lemma main_body_first_failure args w :
  match first_failure args w with
  | None => ∃ w', main_body args w = (Ok tt, w')
  | Some (_, e) => ∃ w1, main_body args w = (Raise e, w1)
  end.
Proof.
  unfold first_failure. rewrite main_body_unfold.
  destruct (files w !! input args) as [f|] eqn:Hin; [|by eexists].
  pose proof (validate_dimensions_finishes (args_left args) (args_top args)
                (args_right args) (args_bottom args)) as Hval.
  destruct (validate_dimensions _ _ _ _) as [[]|e|]; [|by eexists|done].
  rewrite crop_gif_unfold, Hin; cbn zeta.
  destruct (contents (input args) f) as [e|[[i fd] fds]]; [by eexists|].
  rewrite collect_stage_frames.
  destruct (stage_frames _ (fd :: fds)) as [[st e]|[|out outs]];
    [by eexists..|].
  cbn [app]. unfold save. cbn [save_errors log].
  destruct (save_errors w !! output args); [by eexists|].
  case_bool_decide; by eexists.
Qed.

End PipelineFacts.

(** C3: [validate_dimensions] returns normally exactly for the integers
    with [0 <= left < right] and [0 <= top < bottom], and raises a
    [ValueError] for every other quadruple. It is a function of the four
    integers alone: it takes no frame and no state. *)
Theorem validate_dimensions_spec (left top right bottom : Z) :
  (0 ≤ left < right ∧ 0 ≤ top < bottom →
     validate_dimensions left top right bottom = Ok tt) ∧
  (¬ (0 ≤ left < right ∧ 0 ≤ top < bottom) →
     ∃ msg, validate_dimensions left top right bottom = Raise (ValueError msg)).
Proof.
  unfold validate_dimensions; cbn [existsb].
  repeat case_bool_decide; cbn; split; intros; eauto; try lia; done.
Qed.

Lemma validate_dimensions_spec_witness :
  validate_dimensions 2 2 8 8 = Ok tt.
Proof. apply (proj1 (validate_dimensions_spec 2 2 8 8)). lia. Defined.

(** *** The frame cropper *)

Section FrameClaims.
Context {Pixel : Type} `{Imaging Pixel}.
Implicit Types (im out current cropped : Image Pixel) (box : Z * Z * Z * Z).

(** C1 (amended): for every frame in good shape and every crop rectangle
    that lies inside the frame, the cropper returns a new raster of
    dimensions (right-left) x (bottom-top) that holds exactly the source
    pixels with x in [left, right) and y in [top, bottom), each at the
    same place relative to the box; the raster stays as it is when the
    mode is RGBA or P and is converted to RGBA otherwise. *)
Theorem cropped_frame_inside current (x0 y0 x1 y1 : Z) :
  wf_image current →
  0 ≤ x0 ≤ x1 → x1 ≤ width current →
  0 ≤ y0 ≤ y1 → y1 ≤ height current →
  ∃ out, cropped_frame current (x0, y0, x1, y1) = Ok out ∧
         wf_image out ∧
         shows_box current (x0, y0, x1, y1) out.
Proof.
  intros Hwf Hx Hx1 Hy Hy1.
  assert (decompression_bomb_check (x1 - x0, y1 - y0) = Ok tt) as Hguard.
  { destruct Hwf as (_ & _ & _ & _ & Hpix).
    eapply decompression_bomb_check_mono; [| |exact Hpix]; lia. }
  destruct (crop_Ok current x0 y0 x1 y1) as (c & Hc & Hm & Hw & Hh & Hcwf);
    [lia|lia|done|].
  exists (to_rgba_if_needed c). unfold cropped_frame. rewrite Hc.
  split; [done|]. split; [by apply to_rgba_if_needed_wf|].
  destruct (to_rgba_if_needed_size c) as [Hw' Hh'].
  unfold shows_box. rewrite Hw', Hh'. do 2 (split; [done|]).
  assert (∀ x y, 0 ≤ x < x1 - x0 → 0 ≤ y < y1 - y0 →
            ∃ p, getpixel current (x0 + x) (y0 + y) = Some p ∧
                 getpixel c x y = Some p) as Hpix.
  { intros x y Hxr Hyr.
    destruct (getpixel_is_Some current (x0 + x) (y0 + y)) as [p Hp];
      [done|lia..|].
    exists p. split; [done|].
    by rewrite (crop_getpixel _ _ _ _ _ _ _ _ Hc), Hp by done. }
  unfold to_rgba_if_needed. rewrite Hm.
  destruct (decide (mode current ∈ ["RGBA"; "P"])) as [Hkept|Hconv].
  - rewrite (bool_decide_eq_true_2 (mode current ∈ _)) by done.
    rewrite (bool_decide_eq_false_2 (mode current ∉ _)) by auto.
    split; [done|]. intros x y Hxr Hyr. by apply Hpix.
  - rewrite (bool_decide_eq_false_2 (mode current ∈ _)) by done.
    rewrite (bool_decide_eq_true_2 (mode current ∉ _)) by done.
    split; [done|].
    intros x y Hxr Hyr. destruct (Hpix x y Hxr Hyr) as (p & Hp & Hcp).
    exists p. split; [done|]. by rewrite convert_getpixel, Hcp, Hm.
Qed.


(** C10: when the raster that the crop produces is in mode RGBA or P, no
    conversion takes place: the value of [cropped_frame] is that raster,
    and it is that raster which the loop body appends to [frames]. *)
Theorem cropped_frame_keeps_mode current box cropped :
  crop current box = Ok cropped →
  mode cropped ∈ ["RGBA"; "P"] →
  cropped_frame current box = Ok cropped ∧
  ∀ s : Locals Pixel,
    current_frame (img s) = Decoded current →
    frames (loop_body box s).2 = (frames s ++ [cropped])%list.
Proof.
  intros Hc Hmode.
  assert (cropped_frame current box = Ok cropped) as Hcf.
  { unfold cropped_frame, to_rgba_if_needed. rewrite Hc.
    by rewrite bool_decide_eq_false_2 by (by intros ?). }
  split; [done|]. intros s Hcur.
  rewrite (loop_body_Decoded _ _ _ Hcur), Hcf. unfold seek.
  case_bool_decide; [done|]. by case_match.
Qed.

End FrameClaims.

(** *** The pipeline *)

Section PipelineClaims.
Context {Pixel : Type} `{Imaging Pixel}.
Implicit Types (im out : Image Pixel) (w : World Pixel) (args : Args).
Implicit Types (input_path output_path : string).


(** C4 (amended): whenever [crop_gif] returns normally, every frame was
    handed to the encoder with one duration, that of the input, or 100
    when the input has none; and the file written carries the loop count
    of the input, or 0 when the input has none, as two bytes hold it
    (that is, as it is, from 0 to 65535). A frame written displays for
    that duration once for each of the consecutive frames that it stands
    for, as the file holds this time: in hundredths of a second, in two
    bytes. When the duration is a whole number of hundredths of a second
    and the frames handed over play for no more than 655350 ms, the file
    holds these times as they are: the animation plays as long as the
    frames handed over would, and every frame displays for just the
    duration when no frame repeats the one before it. *)
Theorem crop_gif_metadata input_path output_path (l t r b : Z) w w'
    i (fd : FrameData Pixel) (fds : list (FrameData Pixel)) :
  files w !! input_path = Some (Animated i fd fds) →
  crop_gif input_path output_path l t r b w = (Ok tt, w') →
  let d := default 100 (i !! "duration") in
  let loop := default 0 (i !! "loop") in
  ∃ o0 os size written,
    extract_frames {| info := i; file_frames := fd :: fds;
                      position := 0; current_frame := fd |} (l, t, r, b)
      = Ok (o0 :: os) ∧
    written = encode_frames d o0 os ∧
    files w' !! output_path = Some (Written size (o16 loop) written) ∧
    (0 ≤ loop ≤ 65535 → o16 loop = loop) ∧
    Forall (λ x, ∃ k : nat, x.2 = stored_duration (d * Z.of_nat (S k)))
           written ∧
    (all_new o0 os = true → Forall (λ x, x.2 = stored_duration d) written) ∧
    (0 ≤ d → (10 | d) → d * Z.of_nat (length (o0 :: os)) ≤ 655350 →
       Forall (λ x, ∃ k : nat, x.2 = d * Z.of_nat (S k)) written ∧
       foldr Z.add 0 written.*2 = d * Z.of_nat (length (o0 :: os)) ∧
       (all_new o0 os = true → Forall (λ x, x.2 = d) written)).
Proof.
  intros Hin. rewrite crop_gif_unfold, Hin; cbn zeta. cbn [contents].
  rewrite extract_frames_collect.
  destruct (collect _ _ _) as [[|first rest]|e|]; try discriminate.
  destruct (save _ _ _ _ _ _) as [[[]|e|] w2] eqn:Hsave; try discriminate.
  apply save_Ok_inv in Hsave as (_ & _ & _ & ->).
  intros [= <-]. exists first, rest. eexists _, _. split; [done|].
  split; [done|]. split; [apply lookup_written|].
  split; [apply o16_small|].
  set (d := default 100 (i !! "duration")).
  pose proof (merge_frames_times d (first, d) rest) as Htimes.
  split; [|split].
  - unfold encode_frames. apply Forall_fmap.
    eapply Forall_impl; [apply Htimes; exists 0%nat; cbn; lia|].
    intros x [k Hk]. exists k. cbn. by rewrite Hk.
  - intros Hnew. unfold encode_frames.
    rewrite (merge_frames_all_new _ (first, _)) by done.
    apply Forall_fmap, Forall_cons. split; [done|].
    apply Forall_fmap, Forall_forall. done.
  - intros Hd Hdiv Htotal. rewrite encode_frames_exact by done.
    split; [apply Htimes; exists 0%nat; cbn; lia|]. split.
    + rewrite (merge_frames_total _ (first, _)). cbn [snd length]. lia.
    + intros Hnew. rewrite (merge_frames_all_new _ (first, _)) by done.
      apply Forall_cons. split; [done|]. apply snd_timed.
Qed.

(** C5 (amended): for an animated input whose frames decode and all have
    size W x H, with sides from 1 to 65535, with the crop rectangle
    (0, 0, W, H) and an output path that can be written, every frame
    handed to the encoder is the input frame at the same place: as it is
    when its mode is RGBA or P, converted to RGBA pixel by pixel
    otherwise. The output announces the size W x H and holds these
    frames in this order, but for the frames in which the encoder finds
    nothing new over the frame written before: the frame count is
    unchanged when no frame repeats the one before it, and smaller when
    one does. *)
Theorem crop_gif_full_frame input_path output_path (W Ht : Z) w
    i (f0 : Image Pixel) (fs : list (Image Pixel)) :
  files w !! input_path = Some (Animated i (Decoded f0) (Decoded <$> fs)) →
  Forall (λ im, wf_image im ∧ width im = W ∧ height im = Ht) (f0 :: fs) →
  0 < W ≤ 65535 → 0 < Ht ≤ 65535 →
  save_errors w !! output_path = None →
  ∃ w' o0 os written,
    crop_gif input_path output_path 0 0 W Ht w = (Ok tt, w') ∧
    (∀ (k : nat) im, (f0 :: fs) !! k = Some im →
       (o0 :: os) !! k =
         Some (if bool_decide (mode im ∈ ["RGBA"; "P"]) then im
               else convert im "RGBA")) ∧
    length (o0 :: os) = length (f0 :: fs) ∧
    written = encode_frames (default 100 (i !! "duration")) o0 os ∧
    files w' !! output_path =
      Some (Written (W, Ht) (o16 (default 0 (i !! "loop"))) written) ∧
    written.*1 `sublist_of` o0 :: os ∧
    (all_new o0 os = true → written.*1 = o0 :: os) ∧
    (all_new o0 os = false → (length written < length (f0 :: fs))%nat).
Proof.
  intros Hin Hsize HW HH Hout.
  assert (Forall2 (λ im out, cropped_frame im (0, 0, W, Ht) = Ok out)
            (f0 :: fs) (to_rgba_if_needed <$> f0 :: fs)) as Hall.
  { apply Forall2_fmap_r, Forall_Forall2_diag.
    eapply Forall_impl; [exact Hsize|]. intros im (Hwf & <- & <-).
    unfold cropped_frame. by rewrite crop_full. }
  apply Forall_cons_1 in Hsize as Hhead. destruct Hhead as [(_ & Hw0 & Hh0) _].
  destruct (to_rgba_if_needed_size f0) as [Hw0' Hh0'].
  eexists _, (to_rgba_if_needed f0), (to_rgba_if_needed <$> fs), _. split.
  { apply (crop_gif_Decoded _ _ _ _ _ _ _ _ _ _ _ _ Hin Hall); [lia..|done]. }
  split.
  { intros k im Hk.
    change (to_rgba_if_needed f0 :: (to_rgba_if_needed <$> fs))
      with (to_rgba_if_needed <$> f0 :: fs).
    rewrite list_lookup_fmap, Hk; cbn. f_equal.
    unfold to_rgba_if_needed.
    destruct (decide (mode im ∈ ["RGBA"; "P"])) as [Hkept|Hconv].
    - rewrite (bool_decide_eq_true_2 (mode im ∈ _)) by done.
      by rewrite (bool_decide_eq_false_2 (mode im ∉ _)) by auto.
    - rewrite (bool_decide_eq_false_2 (mode im ∈ _)) by done.
      by rewrite (bool_decide_eq_true_2 (mode im ∉ _)) by done. }
  split; [cbn; by rewrite length_fmap|].
  split; [done|]. split.
  { rewrite lookup_written, Hw0', Hh0', Hw0, Hh0.
    by rewrite !o16_small by lia. }
  rewrite encode_frames_fst, encode_frames_length.
  split; [apply (merge_frames_sublist _ (to_rgba_if_needed f0, _))|].
  split.
  - intros Hnew. rewrite (merge_frames_all_new _ (to_rgba_if_needed f0, _)) by done.
    cbn. by rewrite fst_timed.
  - intros Hrep.
    pose proof (merge_frames_repeat (default 100 (i !! "duration"))
                  (to_rgba_if_needed f0, default 100 (i !! "duration"))
                  _ Hrep) as Hlt.
    rewrite length_fmap in Hlt. cbn. lia.
Qed.

(** C7: when the loop leaves [frames] empty, [crop_gif] raises the
    [ValueError] "No frames were extracted from the GIF" in place of
    encoding: the encoder is not called and no file is written. *)
Theorem crop_gif_no_frames input_path output_path (l t r b : Z) w
    i (fd : FrameData Pixel) (fds : list (FrameData Pixel)) :
  files w !! input_path = Some (Animated i fd fds) →
  extract_frames {| info := i; file_frames := fd :: fds;
                    position := 0; current_frame := fd |} (l, t, r, b) = Ok [] →
  let run := crop_gif input_path output_path l t r b w in
  run.1 = Raise (ValueError "No frames were extracted from the GIF") ∧
  files run.2 = files w ∧
  trace run.2 =
    (trace w ++
       [Open input_path;
        Print "Error processing GIF: No frames were extracted from the GIF"])%list.
Proof.
  intros Hin Hloop run. subst run.
  rewrite extract_frames_collect in Hloop.
  rewrite crop_gif_unfold, Hin; cbn zeta. cbn [contents]. rewrite Hloop; cbn.
  by rewrite <- app_assoc.
Qed.

(** C8: when the input path does not exist, [main] fails with
    [FileNotFoundError] before the image is opened: it prints the error,
    returns 1, and leaves the file system as it was. *)
Theorem main_missing_input args w :
  files w !! input args = None →
  main_body args w =
    (Raise (FileNotFoundError ("Input file not found: " ++ input args)), w) ∧
  main args w =
    (Ok 1, log (Print ("Error: Input file not found: " ++ input args)) w) ∧
  files (main args w).2 = files w ∧
  trace (main args w).2 =
    (trace w ++ [Print ("Error: Input file not found: " ++ input args)])%list.
Proof.
  intros Hin.
  assert (main_body args w =
            (Raise (FileNotFoundError ("Input file not found: " ++ input args)), w))
    as Hbody by (by rewrite main_body_unfold, Hin).
  split; [done|]. by rewrite main_unfold, Hbody.
Qed.

(** C9: [main] returns 0 exactly when no stage fails: the path check,
    the validation, the decoding of the frames up to the end-of-frames
    signal, their cropping and the encoding, each taken by what the file
    system, the frames, [crop] and the encoder do ([first_failure]).
    When a stage fails, the exception of the first failure is the one
    that ends the body of [main]'s [try]; it is printed as "Error: "
    followed by [str(e)], after which [main] returns 1. So no exception
    of any stage is lost or retried; only the [EOFError] that ends the
    frames is no failure. In every case [main] returns, with 0 or with
    1. *)
Theorem main_exit_status args w :
  (first_failure args w = None ↔ ∃ w', main args w = (Ok 0, w')) ∧
  (∀ st e, first_failure args w = Some (st, e) →
     ∃ w1, main_body args w = (Raise e, w1) ∧
           main args w = (Ok 1, log (Print ("Error: " ++ str e)) w1)) ∧
  ((main args w).1 = Ok 0 ∨ (main args w).1 = Ok 1).
Proof.
  pose proof (main_body_first_failure args w) as Hstages.
  rewrite main_unfold.
  destruct (first_failure args w) as [[st e]|].
  - destruct Hstages as [w1 ->]. split; [split; [done|by intros [? [=]]]|].
    split; [|by right]. intros st' e' [= <- <-]. by exists w1.
  - destruct Hstages as [w' ->]. split; [split; eauto|].
    split; [done|by left].
Qed.

End PipelineClaims.

(** *** The scenarios of the specification *)

Example validate_empty_box :
  validate_dimensions 5 5 5 5 =
    Raise (ValueError "Left coordinate must be less than right coordinate").
Proof. reflexivity. Qed.

Example validate_negative_coordinate :
  validate_dimensions (-1) 0 5 5 =
    Raise (ValueError "Coordinates cannot be negative").
Proof. reflexivity. Qed.

(** Three frames of 10 x 10, duration 200, box (2, 2, 8, 8). *)
Example main_three_frames :
  let run := main (sample_args "in.gif" (2, 2, 8, 8)) sample_world in
  run.1 = Ok 0 ∧
  trace run.2 = [Open "in.gif"; Save "out.gif";
                 Print "Successfully saved cropped GIF to out.gif"] ∧
  ∃ written,
    files run.2 !! "out.gif" = Some (Written (6, 6) 0 written) ∧
    (λ x, (shape x.1, x.2)) <$> written =
      [("P", 6, 6, 200); ("RGBA", 6, 6, 200); ("RGBA", 6, 6, 200)].
Proof.
  do 2 (split; [reflexivity|]). eexists.
  split; vm_compute; reflexivity.
Qed.

(** A 10 x 10 source with the box (0, 0, 20, 20): the run succeeds and
    the frames written are 20 x 20. *)
Example main_box_beyond_frame :
  let run := main (sample_args "in.gif" (0, 0, 20, 20)) sample_world in
  run.1 = Ok 0 ∧
  ∃ written,
    files run.2 !! "out.gif" = Some (Written (20, 20) 0 written) ∧
    (λ x, shape x.1) <$> written =
      [("P", 20, 20); ("RGBA", 20, 20); ("RGBA", 20, 20)].
Proof.
  split; [reflexivity|]. eexists.
  split; vm_compute; reflexivity.
Qed.

(** The box (0, 0, 20000, 10000) is valid and has more pixels than
    Pillow lets be: the run fails at the first crop. *)
Example main_box_too_large :
  let run := main (sample_args "in.gif" (0, 0, 20000, 10000)) sample_world in
  run.1 = Ok 1 ∧
  files run.2 = files sample_world ∧
  trace run.2 =
    [Open "in.gif";
     Print "Error processing GIF: Image size (200000000 pixels) exceeds limit of 178956970 pixels, could be decompression bomb DOS attack.";
     Print "Error: Image size (200000000 pixels) exceeds limit of 178956970 pixels, could be decompression bomb DOS attack."].
Proof. repeat split. Qed.

(** An input that [Image.open] refuses. *)
Example main_unreadable_input :
  let w := {| files := {[ "notes.txt" :=
                Unreadable (UnidentifiedImageError
                              "cannot identify image file 'notes.txt'") ]};
              save_errors := ∅; aliases := ∅; trace := [] |}
           : World (list Z) in
  let run := main (sample_args "notes.txt" (2, 2, 8, 8)) w in
  run.1 = Ok 1 ∧
  files run.2 = files w ∧
  trace run.2 =
    [Open "notes.txt";
     Print "Error processing GIF: cannot identify image file 'notes.txt'";
     Print "Error: cannot identify image file 'notes.txt'"].
Proof. repeat split. Qed.

(** Three frames of which the last two are the same picture: two frames
    are written, the second for twice the time. *)
Example crop_gif_repeated_frame :
  ∃ w' written,
    crop_gif "still.gif" "out.gif" 0 0 4 4 repeat_world = (Ok tt, w') ∧
    files w' !! "out.gif" = Some (Written (4, 4) 0 written) ∧
    written = [(marked 1 4 4, 200); (marked 2 4 4, 400)].
Proof. eexists _, _. split; [|split]; vm_compute; reflexivity. Qed.

(** A box that cuts the differing corner off: one frame is written, for
    three times the time. *)
Example crop_gif_all_frames_alike :
  ∃ w' written,
    crop_gif "moving.gif" "out.gif" 1 1 3 3 repeat_world = (Ok tt, w') ∧
    files w' !! "out.gif" = Some (Written (2, 2) 0 written) ∧
    (λ x, (shape x.1, x.2)) <$> written = [("P", 2, 2, 600)].
Proof. eexists _, _. split; [|split]; vm_compute; reflexivity. Qed.

(** [crop_gif] called with an empty box, which [main] would refuse: the
    encoder refuses the empty frame and no file appears. *)
Example crop_gif_empty_box :
  let run := crop_gif "moving.gif" "out.gif" 1 1 1 1 repeat_world in
  ∃ msg,
    run.1 = Raise (ValueError msg) ∧
    files run.2 !! "out.gif" = None ∧
    trace run.2 =
      [Open "moving.gif"; Save "out.gif";
       Print ("Error processing GIF: " ++ msg)].
Proof. eexists. repeat split. Qed.

(** Writing to another spelling of the input path replaces what the
    input path shows. *)
Example main_output_names_input :
  let args := {| input := "still.gif"; output := "./still.gif";
                 args_left := 0; args_top := 0;
                 args_right := 2; args_bottom := 2 |} in
  let run := main args repeat_world in
  run.1 = Ok 0 ∧
  files run.2 !! "still.gif" = files run.2 !! "./still.gif" ∧
  files run.2 !! "still.gif" ≠ files repeat_world !! "still.gif".
Proof.
  split; [reflexivity|]. split; [vm_compute; reflexivity|].
  vm_compute. discriminate.
Qed.

(** *** The claims on the sample inputs *)

Lemma ramp_wf (m : string) (w h : Z) :
  0 ≤ w → 0 ≤ h → decompression_bomb_check (w, h) = Ok tt →
  wf_image (ramp m w h).
Proof.
  intros Hw Hh Hpix. repeat split; cbn; try done.
  - by rewrite length_fmap, length_seqZ.
  - apply Forall_fmap, Forall_forall. intros y _. cbn.
    by rewrite length_fmap, length_seqZ.
Qed.

Lemma marked_wf (v w h : Z) :
  0 ≤ w → 0 ≤ h → decompression_bomb_check (w, h) = Ok tt →
  wf_image (marked v w h).
Proof.
  intros Hw Hh Hpix. repeat split; cbn; try done.
  - by rewrite length_fmap, length_seqZ.
  - apply Forall_fmap, Forall_forall. intros y _. cbn.
    by rewrite length_fmap, length_seqZ.
Qed.

Lemma cropped_frame_inside_witness :
  ∃ out, cropped_frame (ramp "RGB" 10 10) (2, 2, 8, 8) = Ok out ∧
         wf_image out ∧
         shows_box (ramp "RGB" 10 10) (2, 2, 8, 8) out.
Proof.
  apply (cropped_frame_inside (ramp "RGB" 10 10) 2 2 8 8);
    [apply ramp_wf; [lia | lia | reflexivity] | lia | cbn; lia | lia | cbn; lia].
Defined.

(** C1, as it is stated, fails on a box that reaches beyond the frame:
    the crop of a 1 x 1 frame to (0, 0, 2, 1) has a second pixel, which
    is blank and shows no pixel of the source. *)
Lemma cropped_frame_beyond_counterexample :
  ∃ out, cropped_frame (ramp "P" 1 1) (0, 0, 2, 1) = Ok out ∧
         getpixel (ramp "P" 1 1) 1 0 = None ∧
         getpixel out 1 0 = Some [0] ∧
         ¬ shows_box (ramp "P" 1 1) (0, 0, 2, 1) out.
Proof.
  eexists. split; [vm_compute; reflexivity|].
  do 2 (split; [reflexivity|]).
  intros (_ & _ & _ & Hpix).
  destruct (Hpix 1 0) as (p & Hp & _); [lia..|]. discriminate Hp.
Qed.



Lemma crop_gif_metadata_witness :
  let d := default 100 (({[ "duration" := 200 ]} : gmap string Z)
                          !! "duration") in
  let loop := default 0 (({[ "duration" := 200 ]} : gmap string Z)
                           !! "loop") in
  ∃ o0 os size written,
    extract_frames
      {| info := {[ "duration" := 200 ]};
         file_frames := Decoded (marked 1 4 4)
                        :: [Decoded (marked 2 4 4); Decoded (marked 2 4 4)];
         position := 0; current_frame := Decoded (marked 1 4 4) |}
      (0, 0, 2, 2) = Ok (o0 :: os) ∧
    written = encode_frames d o0 os ∧
    files (crop_gif "still.gif" "out.gif" 0 0 2 2 repeat_world).2 !! "out.gif"
      = Some (Written size (o16 loop) written) ∧
    (0 ≤ loop ≤ 65535 → o16 loop = loop) ∧
    Forall (λ x, ∃ k : nat, x.2 = stored_duration (d * Z.of_nat (S k)))
           written ∧
    (all_new o0 os = true → Forall (λ x, x.2 = stored_duration d) written) ∧
    (0 ≤ d → (10 | d) → d * Z.of_nat (length (o0 :: os)) ≤ 655350 →
       Forall (λ x, ∃ k : nat, x.2 = d * Z.of_nat (S k)) written ∧
       foldr Z.add 0 written.*2 = d * Z.of_nat (length (o0 :: os)) ∧
       (all_new o0 os = true → Forall (λ x, x.2 = d) written)).
Proof.
  apply (crop_gif_metadata "still.gif" "out.gif" 0 0 2 2 repeat_world
           (crop_gif "still.gif" "out.gif" 0 0 2 2 repeat_world).2
           {[ "duration" := 200 ]} (Decoded (marked 1 4 4))
           [Decoded (marked 2 4 4); Decoded (marked 2 4 4)]);
    [reflexivity | vm_compute; reflexivity].
Defined.

(** C4, as it is stated, fails on the same input: the second frame
    written displays for 400 ms, twice the duration of the input. *)
Lemma crop_gif_metadata_counterexample :
  files repeat_world !! "still.gif" =
    Some (Animated {[ "duration" := 200 ]} (Decoded (marked 1 4 4))
                   [Decoded (marked 2 4 4); Decoded (marked 2 4 4)]) ∧
  ∃ w' size loop written,
    crop_gif "still.gif" "out.gif" 0 0 2 2 repeat_world = (Ok tt, w') ∧
    files w' !! "out.gif" = Some (Written size loop written) ∧
    written.*2 = [200; 400].
Proof.
  split; [reflexivity|].
  eexists _, _, _, _. split; [|split]; vm_compute; reflexivity.
Qed.

Lemma crop_gif_full_frame_witness :
  ∃ w' o0 os written,
    crop_gif "moving.gif" "out.gif" 0 0 4 4 repeat_world = (Ok tt, w') ∧
    (∀ (k : nat) im,
       (marked 1 4 4 :: [marked 2 4 4; marked 3 4 4]) !! k = Some im →
       (o0 :: os) !! k =
         Some (if bool_decide (mode im ∈ ["RGBA"; "P"]) then im
               else convert im "RGBA")) ∧
    length (o0 :: os) = length (marked 1 4 4 :: [marked 2 4 4; marked 3 4 4]) ∧
    written = encode_frames
                (default 100 (({[ "duration" := 200 ]} : gmap string Z)
                                !! "duration")) o0 os ∧
    files w' !! "out.gif" =
      Some (Written (4, 4)
                    (o16 (default 0 (({[ "duration" := 200 ]} : gmap string Z)
                                       !! "loop"))) written) ∧
    written.*1 `sublist_of` o0 :: os ∧
    (all_new o0 os = true → written.*1 = o0 :: os) ∧
    (all_new o0 os = false →
       (length written
          < length (marked 1 4 4 :: [marked 2 4 4; marked 3 4 4]))%nat).
Proof.
  apply (crop_gif_full_frame "moving.gif" "out.gif" 4 4 repeat_world
           {[ "duration" := 200 ]} (marked 1 4 4)
           [marked 2 4 4; marked 3 4 4]);
    [reflexivity | | lia | lia | reflexivity].
  repeat constructor; apply marked_wf; (lia || reflexivity).
Defined.

(** C5, as it is stated, fails on an input whose third frame shows the
    same picture as its second: with the full-frame box the output has
    two frames, not three. *)
Lemma crop_gif_full_frame_counterexample :
  files repeat_world !! "still.gif" =
    Some (Animated {[ "duration" := 200 ]} (Decoded (marked 1 4 4))
                   [Decoded (marked 2 4 4); Decoded (marked 2 4 4)]) ∧
  ∃ w' loop written,
    crop_gif "still.gif" "out.gif" 0 0 4 4 repeat_world = (Ok tt, w') ∧
    files w' !! "out.gif" = Some (Written (4, 4) loop written) ∧
    length written = 2%nat.
Proof.
  split; [reflexivity|]. eexists _, _, _.
  split; [|split]; vm_compute; reflexivity.
Qed.



Lemma crop_gif_no_frames_witness :
  let run := crop_gif "cut.gif" "out.gif" 2 2 8 8 sample_world in
  run.1 = Raise (ValueError "No frames were extracted from the GIF") ∧
  files run.2 = files sample_world ∧
  trace run.2 =
    [Open "cut.gif";
     Print "Error processing GIF: No frames were extracted from the GIF"].
Proof.
  apply (crop_gif_no_frames "cut.gif" "out.gif" 2 2 8 8 sample_world ∅
           (Broken (EOFError "no more images in GIF file")) []);
    reflexivity.
Defined.

Lemma main_missing_input_witness :
  let args := sample_args "nope.gif" (2, 2, 8, 8) in
  main_body args sample_world =
    (Raise (FileNotFoundError "Input file not found: nope.gif"), sample_world) ∧
  main args sample_world =
    (Ok 1, log (Print "Error: Input file not found: nope.gif") sample_world) ∧
  files (main args sample_world).2 = files sample_world ∧
  trace (main args sample_world).2 =
    [Print "Error: Input file not found: nope.gif"].
Proof.
  apply (main_missing_input (sample_args "nope.gif" (2, 2, 8, 8)) sample_world).
  reflexivity.
Defined.

Lemma main_exit_status_witness :
  (∃ w', main (sample_args "in.gif" (2, 2, 8, 8)) sample_world = (Ok 0, w')) ∧
  (∃ w1,
     main_body (sample_args "bad.gif" (1, 1, 3, 3)) faulty_world
       = (Raise (OSError "image file is truncated"), w1) ∧
     main (sample_args "bad.gif" (1, 1, 3, 3)) faulty_world
       = (Ok 1, log (Print ("Error: " ++ str (OSError "image file is truncated")))
                    w1)).
Proof.
  split.
  - apply (proj1 (proj1 (main_exit_status
                           (sample_args "in.gif" (2, 2, 8, 8)) sample_world))).
    vm_compute. reflexivity.
  - apply (proj1 (proj2 (main_exit_status
                           (sample_args "bad.gif" (1, 1, 3, 3)) faulty_world))
             Decode).
    vm_compute. reflexivity.
Defined.

Lemma cropped_frame_keeps_mode_witness :
  let cropped := {| mode := "P"; width := 1; height := 2;
                    rows := [[[1]]; [[17]]] |} in
  cropped_frame (ramp "P" 2 2) (1, 0, 2, 2) = Ok cropped ∧
  ∀ s : Locals (list Z),
    current_frame (img s) = Decoded (ramp "P" 2 2) →
    frames (loop_body (1, 0, 2, 2) s).2 = (frames s ++ [cropped])%list.
Proof.
  apply (cropped_frame_keeps_mode (ramp "P" 2 2) (1, 0, 2, 2));
    [reflexivity | apply (bool_decide_unpack _); reflexivity].
Defined.

(** ** Further properties of the script *)

(** *** More on frames and the loop *)

Section MoreFacts.
Context {Pixel : Type} `{Imaging Pixel}.
Implicit Types (im out current cropped : Image Pixel) (box : Z * Z * Z * Z).
Implicit Types (fds : list (FrameData Pixel)) (acc : list (Image Pixel)).
Implicit Types (w : World Pixel) (args : Args).

Lemma to_rgba_if_needed_mode cropped :
  mode (to_rgba_if_needed cropped) =
    if bool_decide (mode cropped ∉ ["RGBA"; "P"]) then "RGBA" else mode cropped.
Proof. unfold to_rgba_if_needed. by case_bool_decide. Qed.

Lemma to_rgba_if_needed_mode_elem cropped :
  mode (to_rgba_if_needed cropped) ∈ ["RGBA"; "P"].
Proof.
  rewrite to_rgba_if_needed_mode. case_bool_decide as Hm; [set_solver|done].
Qed.

Lemma to_rgba_if_needed_kept cropped :
  mode cropped ∈ ["RGBA"; "P"] → to_rgba_if_needed cropped = cropped.
Proof.
  intros Hm. unfold to_rgba_if_needed.
  by rewrite bool_decide_eq_false_2 by auto.
Qed.

Lemma to_rgba_if_needed_getpixel cropped x y :
  getpixel (to_rgba_if_needed cropped) x y =
    (if bool_decide (mode cropped ∉ ["RGBA"; "P"])
     then convert_pixel (mode cropped) "RGBA" else id) <$> getpixel cropped x y.
Proof.
  unfold to_rgba_if_needed. case_bool_decide.
  - apply convert_getpixel.
  - by destruct (getpixel cropped x y).
Qed.

(** What [cropped_frame] returns is the converted crop. *)
Lemma cropped_frame_inv current box out :
  cropped_frame current box = Ok out →
  ∃ cropped, crop current box = Ok cropped ∧ out = to_rgba_if_needed cropped.
Proof.
  unfold cropped_frame. destruct (crop current box) as [cropped| |]; [|done..].
  intros [= <-]. eauto.
Qed.

Lemma cropped_frame_mode current box out :
  cropped_frame current box = Ok out → mode out ∈ ["RGBA"; "P"].
Proof.
  intros (cropped & _ & ->)%cropped_frame_inv.
  apply to_rgba_if_needed_mode_elem.
Qed.


Lemma collect_length box fds acc frames :
  collect box fds acc = Ok frames →
  (length frames ≤ length acc + length fds)%nat.
Proof.
  revert acc. induction fds as [|[current|e] fds IH]; intros acc; cbn.
  - intros [= <-]. lia.
  - destruct (cropped_frame current box) as [cropped|e|]; [| |done].
    + intros Hrest%IH. rewrite length_app in Hrest. cbn in Hrest. lia.
    + destruct (is_EOFError e); [|done]. intros [= <-]. lia.
  - destruct (is_EOFError e); [|done]. intros [= <-]. lia.
Qed.

Lemma collect_Raise box fds acc e :
  collect box fds acc = Raise e → is_EOFError e = false.
Proof.
  revert acc. induction fds as [|[current|e'] fds IH]; intros acc; cbn.
  - done.
  - destruct (cropped_frame current box) as [cropped|e'|]; [apply IH| |done].
    destruct (is_EOFError e') eqn:He'; [done|]. by intros [= <-].
  - destruct (is_EOFError e') eqn:He'; [done|]. by intros [= <-].
Qed.

Lemma collect_modes box fds acc frames :
  Forall (λ im, mode im ∈ ["RGBA"; "P"]) acc →
  collect box fds acc = Ok frames →
  Forall (λ im, mode im ∈ ["RGBA"; "P"]) frames.
Proof.
  revert acc. induction fds as [|[current|e] fds IH]; intros acc Hacc; cbn.
  - by intros [= <-].
  - destruct (cropped_frame current box) as [cropped|e|] eqn:Hcrop; [| |done].
    + apply IH. apply Forall_app. split; [done|].
      apply Forall_singleton. by eapply cropped_frame_mode.
    + destruct (is_EOFError e); [|done]. by intros [= <-].
  - destruct (is_EOFError e); [|done]. by intros [= <-].
Qed.

(** Every run of [crop_gif] leaves alone the paths that do not name the
    output file. *)
Lemma crop_gif_other_paths (input_path output_path p : string) (l t r b : Z) w :
  p ∉ names_of w output_path →
  files (crop_gif input_path output_path l t r b w).2 !! p = files w !! p.
Proof.
  intros Hp. rewrite crop_gif_unfold; cbn zeta.
  destruct (files w !! input_path) as [f|]; [|done].
  destruct (contents input_path f) as [e|[[i fd] fds]]; [done|].
  destruct (collect _ _ _) as [[|first rest]|e|]; [done| |done..].
  pose proof (save_other_paths first output_path p rest
                (default 100 (i !! "duration")) (default 0 (i !! "loop"))
                (log (Open input_path) w) Hp) as Hsave.
  by destruct (save _ _ _ _ _ _) as [[[]|e|] w2].
Qed.

(** When [crop_gif] raises, the last thing it did was to print its
    message for the exception. *)
Lemma crop_gif_Raise_trace (input_path output_path : string) (l t r b : Z)
    w w1 e :
  crop_gif input_path output_path l t r b w = (Raise e, w1) →
  ∃ tr, trace w1 = (tr ++ [Print ("Error processing GIF: " ++ str e)])%list.
Proof.
  rewrite crop_gif_unfold; cbn zeta.
  destruct (files w !! input_path) as [f|].
  - destruct (contents input_path f) as [e'|[[i fd] fds]].
    + intros [= <- <-]. by eexists.
    + destruct (collect _ _ _) as [[|first rest]|e'|].
      * intros [= <- <-]. by eexists.
      * destruct (save _ _ _ _ _ _) as [[[]|e'|] w2]; [done| |done].
        intros [= <- <-]. by eexists.
      * intros [= <- <-]. by eexists.
      * done.
  - intros [= <- <-]. by eexists.
Qed.

End MoreFacts.

(** *** Frames *)

Section FrameExtras.
Context {Pixel : Type} `{Imaging Pixel}.
Implicit Types (im out current cropped : Image Pixel) (box : Z * Z * Z * Z).


(** X2: a frame that the crop step has produced is a fixed point of the
    crop step with its own full box: cropping it again to
    (0, 0, width, height) returns it unchanged, mode and pixels. *)
Theorem cropped_frame_full_again current box out :
  cropped_frame current box = Ok out →
  cropped_frame out (0, 0, width out, height out) = Ok out.
Proof.
  intros Hout.
  pose proof (cropped_frame_mode _ _ _ Hout) as Hmode.
  destruct (cropped_frame_inv _ _ _ Hout) as (cropped & Hcrop & ->).
  destruct box as [[[x0 y0] x1] y1].
  destruct (crop_Ok_inv _ _ _ _ _ _ Hcrop) as (_ & _ & _ & _ & _ & _ & Hwf).
  unfold cropped_frame at 1.
  rewrite crop_full by by apply to_rgba_if_needed_wf.
  by rewrite to_rgba_if_needed_kept.
Qed.

(** X3: two crop steps in a row are one crop step with the boxes added
    up: when the second box lies inside the frame that the first step
    produced, cropping that frame gives what cropping the original frame
    to the second box shifted by the corner of the first gives. *)
Theorem cropped_frame_compose current (a b c d x0 y0 x1 y1 : Z) out :
  cropped_frame current (a, b, c, d) = Ok out →
  0 ≤ x0 ≤ x1 → x1 ≤ c - a →
  0 ≤ y0 ≤ y1 → y1 ≤ d - b →
  cropped_frame out (x0, y0, x1, y1) =
  cropped_frame current (a + x0, b + y0, a + x1, b + y1).
Proof.
  intros Hout Hx Hx1 Hy Hy1.
  pose proof (cropped_frame_mode _ _ _ Hout) as Hmode.
  destruct (cropped_frame_inv _ _ _ Hout) as (c1 & Hc1 & ->).
  destruct (crop_Ok_inv _ _ _ _ _ _ Hc1)
    as (Hac & Hbd & Hguard & Hm1 & Hw1 & Hh1 & Hwf1).
  assert (decompression_bomb_check (x1 - x0, y1 - y0) = Ok tt) as Hguard2.
  { eapply decompression_bomb_check_mono; [| |exact Hguard]; lia. }
  destruct (crop_Ok (to_rgba_if_needed c1) x0 y0 x1 y1)
    as (c2 & Hc2 & Hm2 & Hw2 & Hh2 & Hwf2); [lia|lia|done|].
  destruct (crop_Ok current (a + x0) (b + y0) (a + x1) (b + y1))
    as (c3 & Hc3 & Hm3 & Hw3 & Hh3 & Hwf3); [lia| lia | |].
  { by replace (a + x1 - (a + x0)) with (x1 - x0) by lia;
       replace (b + y1 - (b + y0)) with (y1 - y0) by lia. }
  unfold cropped_frame. rewrite Hc2, Hc3. f_equal.
  rewrite to_rgba_if_needed_kept by (by rewrite Hm2).
  destruct (to_rgba_if_needed_size c1) as [Hw1' Hh1'].
  destruct (to_rgba_if_needed_size c3) as [Hw3' Hh3'].
  apply image_ext.
  - done.
  - by apply to_rgba_if_needed_wf.
  - by rewrite Hm2, !to_rgba_if_needed_mode, Hm1, Hm3.
  - lia.
  - lia.
  - intros x y Hxr Hyr. rewrite Hw2 in Hxr. rewrite Hh2 in Hyr.
    rewrite (crop_getpixel _ _ _ _ _ _ _ _ Hc2) by done.
    rewrite !to_rgba_if_needed_getpixel.
    rewrite (crop_getpixel _ _ _ _ _ _ _ _ Hc1) by lia.
    rewrite (crop_getpixel _ _ _ _ _ _ _ _ Hc3) by lia.
    cbn. by rewrite Hm1, Hm3, !Z.add_assoc.
Qed.

End FrameExtras.

(** *** Validation *)

(** X4: the order checks come before the sign check. A box with
    [left >= right] is reported as such whatever else is wrong with it,
    then one with [top >= bottom]; "Coordinates cannot be negative" is
    raised exactly for the boxes in order with [left < 0] or [top < 0]:
    once the box is in order, a negative [right] or [bottom] comes with
    a negative [left] or [top]. *)
Theorem validate_dimensions_messages (left top right bottom : Z) :
  (left >= right →
     validate_dimensions left top right bottom =
       Raise (ValueError "Left coordinate must be less than right coordinate")) ∧
  (left < right → top >= bottom →
     validate_dimensions left top right bottom =
       Raise (ValueError "Top coordinate must be less than bottom coordinate")) ∧
  (left < right → top < bottom →
     (left < 0 ∨ top < 0 ↔
      validate_dimensions left top right bottom =
        Raise (ValueError "Coordinates cannot be negative"))).
Proof.
  unfold validate_dimensions; cbn [existsb].
  repeat case_bool_decide; cbn; repeat split; intros; try done; try lia.
Qed.

Lemma validate_dimensions_messages_witness :
  validate_dimensions (-1) 0 5 5 =
    Raise (ValueError "Coordinates cannot be negative") ∧
  validate_dimensions 7 (-2) 3 (-4) =
    Raise (ValueError "Left coordinate must be less than right coordinate").
Proof.
  split.
  - apply (proj2 (proj2 (validate_dimensions_messages (-1) 0 5 5)));
      [lia | lia | left; lia].
  - apply (proj1 (validate_dimensions_messages 7 (-2) 3 (-4))). lia.
Defined.

(** *** The pipeline, further *)

Section PipelineExtras.
Context {Pixel : Type} `{Imaging Pixel}.
Implicit Types (im out : Image Pixel) (w : World Pixel) (args : Args).
Implicit Types (input_path output_path : string).

(** X5: when the input exists and the box is refused, [main] stops
    before the image is opened: the only event is the one line "Error: "
    with the message of [validate_dimensions], the file system is as it
    was, and the status is 1. *)
Theorem main_invalid_box args w e :
  is_Some (files w !! input args) →
  validate_dimensions (args_left args) (args_top args)
                      (args_right args) (args_bottom args) = Raise e →
  main args w = (Ok 1, log (Print ("Error: " ++ str e)) w).
Proof.
  intros [f Hin] Hval.
  by rewrite main_unfold, main_body_unfold, Hin, Hval.
Qed.

(** X6: an exception that leaves [crop_gif] is reported twice: once by
    [crop_gif] as "Error processing GIF: ...", then by [main] as
    "Error: ...", with the same message; these are the last two events
    before [main] returns 1. *)
Theorem main_reports_twice args w w1 e :
  is_Some (files w !! input args) →
  validate_dimensions (args_left args) (args_top args)
                      (args_right args) (args_bottom args) = Ok tt →
  crop_gif (input args) (output args) (args_left args) (args_top args)
           (args_right args) (args_bottom args) w = (Raise e, w1) →
  (main args w).1 = Ok 1 ∧
  ∃ tr, trace (main args w).2 =
          (tr ++ [Print ("Error processing GIF: " ++ str e);
                  Print ("Error: " ++ str e)])%list.
Proof.
  intros [f Hin] Hval Hrun.
  destruct (crop_gif_Raise_trace _ _ _ _ _ _ _ _ _ Hrun) as [tr Htr].
  rewrite main_unfold, main_body_unfold, Hin, Hval, Hrun. cbn.
  split; [done|]. exists tr. by rewrite Htr, <- app_assoc.
Qed.



(** X9: whatever happens, [main] changes no path but those that name
    the output file: a path that is neither the output path nor another
    spelling of it holds after the run what it held before. *)
Theorem main_touches_only_output args w (p : string) :
  p ∉ names_of w (output args) →
  files (main args w).2 !! p = files w !! p.
Proof.
  intros Hp.
  pose proof (crop_gif_other_paths (input args) (output args) p
                (args_left args) (args_top args) (args_right args)
                (args_bottom args) w Hp) as Hrun.
  rewrite main_unfold, main_body_unfold.
  destruct (files w !! input args); [|done].
  destruct (validate_dimensions _ _ _ _); [|done..].
  by destruct (crop_gif _ _ _ _ _ _ w) as [[[]|e|] w1].
Qed.

(** X10: every frame that [crop_gif] hands to the encoder is in mode
    RGBA or P: a run that returns normally has called [save] on the
    frames that the loop collected, all of which are in one of these
    modes. *)
Theorem crop_gif_output_modes input_path output_path (l t r b : Z) w w' :
  crop_gif input_path output_path l t r b w = (Ok tt, w') →
  ∃ opened w1 o0 os w2,
    Image_open input_path w = (Ok opened, w1) ∧
    extract_frames opened (l, t, r, b) = Ok (o0 :: os) ∧
    save o0 output_path os (default 100 (info opened !! "duration"))
         (default 0 (info opened !! "loop")) w1 = (Ok tt, w2) ∧
    w' = log (Print ("Successfully saved cropped GIF to " ++ output_path)) w2 ∧
    Forall (λ im, mode im ∈ ["RGBA"; "P"]) (o0 :: os).
Proof.
  rewrite crop_gif_unfold; cbn zeta. unfold Image_open.
  destruct (files w !! input_path) as [f|]; [|done].
  destruct (contents input_path f) as [e|[[i fd] fds]]; [done|].
  destruct (collect _ _ _) as [[|first rest]|e|] eqn:Hloop; [done| |done..].
  destruct (save _ _ _ _ _ _) as [[[]|e|] w2] eqn:Hsave; try discriminate.
  intros [= <-].
  assert (Forall (λ im, mode im ∈ ["RGBA"; "P"]) (first :: rest)) as Hmodes.
  { by eapply collect_modes; [apply Forall_nil|exact Hloop]. }
  eexists _, _, first, rest, w2. split; [done|].
  rewrite extract_frames_collect. by cbn [info].
Qed.

(** X11: the frame loop always ends, after at most one pass per frame of
    the file: it yields no more frames than the file holds, and no
    [EOFError] ever leaves it. *)
Theorem extract_frames_bounded i (fd : FrameData Pixel)
    (fds : list (FrameData Pixel)) (box : Z * Z * Z * Z) :
  match extract_frames {| info := i; file_frames := fd :: fds;
                          position := 0; current_frame := fd |} box with
  | Ok frames => (length frames ≤ length (fd :: fds))%nat
  | Raise e => is_EOFError e = false
  | Unfinished => False
  end.
Proof.
  rewrite extract_frames_collect.
  pose proof (collect_finishes box (fd :: fds) []) as Hfin.
  destruct (collect box (fd :: fds) []) as [frames|e|] eqn:Hloop; [| |done].
  - by apply collect_length in Hloop.
  - by apply collect_Raise in Hloop.
Qed.

(** X12: a run of [main] that returns 0 has opened the input once, then
    called the encoder once on the output path, then printed the success
    line, and nothing else. *)
Theorem main_success_trace args w w' :
  main args w = (Ok 0, w') →
  trace w' =
    (trace w ++
       [Open (input args); Save (output args);
        Print ("Successfully saved cropped GIF to " ++ output args)])%list.
Proof.
  rewrite main_unfold, main_body_unfold.
  destruct (files w !! input args) as [f|] eqn:Hin; [|done].
  destruct (validate_dimensions _ _ _ _); [|done..].
  rewrite crop_gif_unfold, Hin; cbn zeta.
  destruct (contents (input args) f) as [e|[[i fd] fds]]; [done|].
  destruct (collect _ _ _) as [[|first rest]|e|]; [done| |done..].
  pose proof (save_trace first (output args) rest
                (default 100 (i !! "duration")) (default 0 (i !! "loop"))
                (log (Open (input args)) w)) as Htr.
  destruct (save _ _ _ _ _ _) as [[[]|e|] w2]; try done.
  intros [= <-]. cbn in *. rewrite Htr. by rewrite <- !app_assoc.
Qed.

End PipelineExtras.

(** *** The further properties on sample inputs *)


Lemma cropped_frame_full_again_witness :
  let out := {| mode := "RGBA"; width := 1; height := 2;
                rows := [[[1; 1; 1; 255]]; [[17; 17; 17; 255]]] |} in
  cropped_frame out (0, 0, 1, 2) = Ok out.
Proof.
  apply (cropped_frame_full_again (ramp "RGB" 2 2) (1, 0, 2, 2)). reflexivity.
Defined.

Lemma cropped_frame_compose_witness :
  cropped_frame {| mode := "P"; width := 2; height := 2;
                   rows := [[[17]; [18]]; [[33]; [34]]] |} (1, 0, 2, 2) =
  cropped_frame (ramp "P" 3 3) (1 + 1, 1 + 0, 1 + 2, 1 + 2).
Proof.
  apply (cropped_frame_compose (ramp "P" 3 3) 1 1 3 3 1 0 2 2);
    [reflexivity | lia..].
Defined.

Lemma main_invalid_box_witness :
  main (sample_args "in.gif" (5, 5, 5, 5)) sample_world =
    (Ok 1,
     log (Print ("Error: " ++
                 str (ValueError "Left coordinate must be less than right coordinate")))
         sample_world).
Proof.
  apply (main_invalid_box (sample_args "in.gif" (5, 5, 5, 5)) sample_world);
    [by eexists | reflexivity].
Defined.

Lemma main_reports_twice_witness :
  let args := sample_args "bad.gif" (1, 1, 3, 3) in
  (main args faulty_world).1 = Ok 1 ∧
  ∃ tr, trace (main args faulty_world).2 =
          (tr ++ [Print ("Error processing GIF: " ++
                         str (OSError "image file is truncated"));
                  Print ("Error: " ++ str (OSError "image file is truncated"))])%list.
Proof.
  apply (main_reports_twice (sample_args "bad.gif" (1, 1, 3, 3)) faulty_world
           (crop_gif "bad.gif" "out.gif" 1 1 3 3 faulty_world).2);
    [by eexists | reflexivity | vm_compute; reflexivity].
Defined.



Lemma main_touches_only_output_witness :
  let args := {| input := "moving.gif"; output := "./still.gif";
                 args_left := 0; args_top := 0;
                 args_right := 2; args_bottom := 2 |} in
  files (main args repeat_world).2 !! "moving.gif"
  = files repeat_world !! "moving.gif".
Proof.
  apply (main_touches_only_output
           {| input := "moving.gif"; output := "./still.gif";
              args_left := 0; args_top := 0;
              args_right := 2; args_bottom := 2 |} repeat_world "moving.gif").
  apply (bool_decide_unpack _). reflexivity.
Defined.

Lemma crop_gif_output_modes_witness :
  ∃ opened w1 o0 os w2,
    Image_open "in.gif" sample_world = (Ok opened, w1) ∧
    extract_frames opened (2, 2, 8, 8) = Ok (o0 :: os) ∧
    save o0 "out.gif" os (default 100 (info opened !! "duration"))
         (default 0 (info opened !! "loop")) w1 = (Ok tt, w2) ∧
    (crop_gif "in.gif" "out.gif" 2 2 8 8 sample_world).2 =
      log (Print ("Successfully saved cropped GIF to " ++ "out.gif")) w2 ∧
    Forall (λ im, mode im ∈ ["RGBA"; "P"]) (o0 :: os).
Proof.
  apply (crop_gif_output_modes "in.gif" "out.gif" 2 2 8 8 sample_world).
  vm_compute. reflexivity.
Defined.

Lemma main_success_trace_witness :
  trace (main (sample_args "in.gif" (2, 2, 8, 8)) sample_world).2 =
    (trace sample_world ++
       [Open "in.gif"; Save "out.gif";
        Print ("Successfully saved cropped GIF to " ++ "out.gif")])%list.
Proof.
  apply (main_success_trace (sample_args "in.gif" (2, 2, 8, 8)) sample_world).
  vm_compute. reflexivity.
Defined.
